(** * IceCubeClone: the PR-review bot and the issue agent

    A shallow embedding of the two GitHub-script programs of the repository,

      - [.github/scripts/pr-review.js]   ([getReview], [reviewPR]) and
      - [.github/scripts/issue-agent.js] ([analyzeIssueWithKnowledgeBase],
        [applyChanges]),

    and the properties their specification states about them.

    Conventions of the embedding.
      - A JavaScript string is a [string]: a sequence of code units, here
        restricted to the 8-bit range.  String values produced by
        [JSON.parse] may hold any 16-bit unit (through [\uXXXX]) and are
        kept as [list N].
      - A JavaScript number that counts lines is a [Z]; the numbers that
        [JSON.parse] reads are kept as exact decimals ([num]).
      - [null]/[undefined] results are [None]; a thrown exception is the
        [Throw] alternative of [result]; console and [core] output is a
        list of [LogEntry] returned next to the value. *)

From Stdlib Require Import ZArith NArith List String Ascii Bool Lia.
From Stdlib Require Import DecimalString DecimalN DecimalFacts.
From stdpp Require Import gmap strings.
Import ListNotations.

Local Open Scope string_scope.
Local Open Scope Z_scope.

(* ================================================================== *)
(** * JavaScript string primitives *)
(* ================================================================== *)

Module JsString.

(** [s.startsWith(p)] *)
Fixpoint startsWith (p s : string) : bool :=
  match p, s with
  | EmptyString, _ => true
  | String a p', String b s' => Ascii.eqb a b && startsWith p' s'
  | String _ _, EmptyString => false
  end.

(** [s.split('\n')]: always at least one piece. *)
Fixpoint split_nl (s : string) : list string :=
  match s with
  | EmptyString => [EmptyString]
  | String c s' =>
      if Ascii.eqb c "010"
      then EmptyString :: split_nl s'
      else match split_nl s' with
           | l :: ls => String c l :: ls
           | [] => [String c EmptyString]
           end
  end.

(** [lines.join('\n')] *)
Fixpoint join_nl (ls : list string) : string :=
  match ls with
  | [] => EmptyString
  | [l] => l
  | l :: ls' => l ++ String "010" (join_nl ls')
  end.

(** The character does not occur in the string. *)
Fixpoint lacks (c : ascii) (s : string) : bool :=
  match s with
  | EmptyString => true
  | String a s' => negb (Ascii.eqb a c) && lacks c s'
  end.

(** Drop [p] from the front of [s], when [s] starts with it. *)
Fixpoint dropPrefix (p s : string) : option string :=
  match p, s with
  | EmptyString, _ => Some s
  | String a p', String b s' =>
      if Ascii.eqb a b then dropPrefix p' s' else None
  | String _ _, EmptyString => None
  end.

(** The first occurrence of [pat]: what precedes it and what follows. *)
Fixpoint findSub (pat s : string) : option (string * string) :=
  match dropPrefix pat s with
  | Some rest => Some (EmptyString, rest)
  | None =>
      match s with
      | EmptyString => None
      | String c s' =>
          match findSub pat s' with
          | Some (before, rest) => Some (String c before, rest)
          | None => None
          end
      end
  end.

(** The white space that [String.prototype.trim] removes, among the
    8-bit code units: TAB, LF, VT, FF, CR, SP and NBSP. *)
Definition isTrimSpace (c : ascii) : bool :=
  let n := N_of_ascii c in
  ((9 <=? n) && (n <=? 13) || (n =? 32) || (n =? 160))%N.

Fixpoint trimStart (s : string) : string :=
  match s with
  | EmptyString => EmptyString
  | String c s' => if isTrimSpace c then trimStart s' else s
  end.

Fixpoint trimEnd (s : string) : string :=
  match s with
  | EmptyString => EmptyString
  | String c s' =>
      match trimEnd s' with
      | EmptyString => if isTrimSpace c then EmptyString else String c EmptyString
      | t => String c t
      end
  end.

(** [s.trim()] *)
Definition trim (s : string) : string := trimStart (trimEnd s).

(** The double quote, and a text between double quotes. *)
Definition dquote : ascii := "034".

Definition quoted (s : string) : string :=
  String dquote (s ++ String dquote EmptyString).

(** A decimal digit, [\d]. *)
Definition isDigit (c : ascii) : bool :=
  let n := N_of_ascii c in ((48 <=? n) && (n <=? 57))%N.

(** Truthiness of a string value: only the empty string is falsy. *)
Definition truthy (s : string) : bool :=
  match s with EmptyString => false | _ => true end.

(** Truthiness of a possibly missing ([undefined]/[null]) string. *)
Definition truthyOpt (o : option string) : bool :=
  match o with Some s => truthy s | None => false end.

End JsString.

(* ================================================================== *)
(** * The unified-diff line locator ([reviewPR], lines 143-169) *)
(* ================================================================== *)

Module Locator.
Import JsString.

(** The longest run of decimal digits at the front: [\d*]. *)
Fixpoint spanDigits (s : string) : string * string :=
  match s with
  | String c s' =>
      if isDigit c
      then let '(ds, rest) := spanDigits s' in (String c ds, rest)
      else (EmptyString, s)
  | EmptyString => (EmptyString, EmptyString)
  end.

(** [\d+]: the run must not be empty. *)
Definition digits1 (s : string) : option (string * string) :=
  match spanDigits s with
  | (EmptyString, _) => None
  | (ds, rest) => Some (ds, rest)
  end.

(** [(?:,\d+)?]: a comma and digits when they are there, nothing
    otherwise.  What follows the group in the pattern is a space, which
    is neither a comma nor a digit, so the greedy choice is the only
    one that can succeed and no backtracking is lost. *)
Definition optCommaDigits (s : string) : string :=
  match s with
  | String "," s' =>
      match digits1 s' with
      | Some (_, rest) => rest
      | None => s
      end
  | _ => s
  end.

(** [parseInt] of a string of decimal digits.  The value is kept
    exact; a JavaScript number holds it exactly below [2 ^ 53]. *)
Definition parseInt (ds : string) : Z :=
  match NilZero.uint_of_string ds with
  | Some u => Z.of_N (N.of_uint u)
  | None => 0
  end.

(** The pattern [@@ -\d+(?:,\d+)? \+(\d+)(?:,\d+)? @@] tried at the
    front of [s]; the result is capture group 1. *)
Definition hunkHeaderAt (s : string) : option string :=
  match dropPrefix "@@ -" s with
  | None => None
  | Some s1 =>
      match digits1 s1 with
      | None => None
      | Some (_, s2) =>
          match dropPrefix " +" (optCommaDigits s2) with
          | None => None
          | Some s3 =>
              match digits1 s3 with
              | None => None
              | Some (newStart, s4) =>
                  match dropPrefix " @@" (optCommaDigits s4) with
                  | None => None
                  | Some _ => Some newStart
                  end
              end
          end
      end
  end.

(** [line.match(/@@ -\d+(?:,\d+)? \+(\d+)(?:,\d+)? @@/)]: the pattern is
    not anchored, so every start index is tried from the left. *)
Fixpoint hunkHeaderMatch (line : string) : option string :=
  match hunkHeaderAt line with
  | Some g => Some g
  | None =>
      match line with
      | EmptyString => None
      | String _ line' => hunkHeaderMatch line'
      end
  end.

(** What one iteration of the [for] loop does with [patchLines[i]]. *)
Inductive Step :=
| Continue (lineCounter : Z)   (* go on with the next line *)
| Found.                       (* [position = i + 1; break] *)

Definition scanLine (line : string) (lineCounter target : Z) : Step :=
  match (if startsWith "@@" line then hunkHeaderMatch line else None) with
  | Some g => Continue (parseInt g - 1)
  | None =>
      if negb (startsWith "---" line) && negb (startsWith "+++" line) then
        let lineCounter' :=
          if negb (startsWith "-" line) then lineCounter + 1 else lineCounter in
        if lineCounter' =? target then Found else Continue lineCounter'
      else Continue lineCounter
  end.

(** The loop over [patchLines] from index [i] on. *)
Fixpoint scan (patchLines : list string) (i : nat) (lineCounter target : Z)
  : option nat :=
  match patchLines with
  | [] => None
  | line :: rest =>
      match scanLine line lineCounter target with
      | Found => Some (i + 1)%nat
      | Continue lineCounter' => scan rest (S i) lineCounter' target
      end
  end.

(** The position of new-file line [target] in [patch], or [None] for
    [position === null].  The target is an integer: a [review.line]
    that is none equals no value of the counter. *)
Definition findPosition (patch : string) (target : Z) : option nat :=
  scan (split_nl patch) 0 0 target.

End Locator.

(* ================================================================== *)
(** * Unified diffs as the specification's data model describes them *)
(* ================================================================== *)

Module Diff.
Import JsString.

(** A line of a hunk is context, added or removed; the line
    [\ No newline at end of file] may follow one whose text ends the
    file without a line break, and belongs to neither file. *)
Inductive Tag := Context | Added | Removed | NoNewline.

Record Hunk := {
  oldStart : N;  oldLen : N;
  newStart : N;  newLen : N;
  heading  : string;               (* the text after the closing [@@] *)
  body     : list (Tag * string)
}.

Record Diff := {
  fileMarkers : option (string * string);   (* the [---] and [+++] lines *)
  hunks       : list Hunk
}.

Definition dec (n : N) : string := NilZero.string_of_uint (N.to_uint n).

(** [start,len], the length left out when it is 1. *)
Definition range (start len : N) : string :=
  if (len =? 1)%N then dec start else dec start ++ "," ++ dec len.

Definition headerLine (h : Hunk) : string :=
  "@@ -" ++ range (oldStart h) (oldLen h) ++
  " +" ++ range (newStart h) (newLen h) ++ " @@" ++ heading h.

Definition marker (t : Tag) : string :=
  match t with
  | Context => " "
  | Added => "+"
  | Removed => "-"
  | NoNewline => "\"
  end.

Definition contentLine (l : Tag * string) : string := marker (fst l) ++ snd l.

Definition inNewFile (t : Tag) : bool :=
  match t with Context | Added => true | _ => false end.

Definition inOldFile (t : Tag) : bool :=
  match t with Context | Removed => true | _ => false end.

(** Every line of the diff with the new-file line number it stands for;
    [n] is the number of the next new-file line. *)
Fixpoint annotateBody (n : Z) (ls : list (Tag * string))
  : list (string * option Z) :=
  match ls with
  | [] => []
  | l :: ls' =>
      if inNewFile (fst l)
      then (contentLine l, Some n) :: annotateBody (n + 1) ls'
      else (contentLine l, None) :: annotateBody n ls'
  end.

Definition annotateHunk (h : Hunk) : list (string * option Z) :=
  (headerLine h, None) :: annotateBody (Z.of_N (newStart h)) (body h).

Definition annotateMarkers (m : option (string * string))
  : list (string * option Z) :=
  match m with
  | Some (a, b) => [("--- " ++ a, None); ("+++ " ++ b, None)]
  | None => []
  end.

Definition annotate (d : Diff) : list (string * option Z) :=
  (annotateMarkers (fileMarkers d) ++ flat_map annotateHunk (hunks d))%list.

Definition diffLines (d : Diff) : list string := map fst (annotate d).

(** The diff body as one text blob. *)
Definition render (d : Diff) : string := join_nl (diffLines d).

(** The new-file line number of the diff line at 1-based position [p]:
    [None] for headers, markers, removed lines, the no-newline marker
    and positions outside. *)
Definition newLineAt (d : Diff) (p : nat) : option Z :=
  match p with
  | O => None
  | S k => match nth_error (annotate d) k with
           | Some (_, n) => n
           | None => None
           end
  end.

(** The tag of the diff line at position [p], when it is a content line. *)
Definition tagsOf (d : Diff) : list (option Tag) :=
  map (fun _ => None) (annotateMarkers (fileMarkers d)) ++
  flat_map (fun h => None :: map (fun l => Some (fst l)) (body h)) (hunks d).

Definition tagAt (d : Diff) (p : nat) : option Tag :=
  match p with
  | O => None
  | S k => match nth_error (tagsOf d) k with
           | Some t => t
           | None => None
           end
  end.

(** New-file line [L] is shown by some added or context line. *)
Definition shows (d : Diff) (L : Z) : Prop :=
  In (Some L) (map snd (annotate d)).

Definition countNew (ls : list (Tag * string)) : N :=
  N.of_nat (length (List.filter (fun l => inNewFile (fst l)) ls)).

Definition countOld (ls : list (Tag * string)) : N :=
  N.of_nat (length (List.filter (fun l => inOldFile (fst l)) ls)).

(** Validity: no line holds a line break, the lengths in a header are
    those of its body, and the hunks follow one another in the new file
    without overlap. *)
Definition lineOk (s : string) : bool := lacks "010" s.

Definition hunkOk (h : Hunk) : bool :=
  lineOk (heading h) &&
  forallb (fun l => lineOk (snd l)) (body h) &&
  (newLen h =? countNew (body h))%N &&
  (oldLen h =? countOld (body h))%N.

Fixpoint ascending (from : N) (hs : list Hunk) : bool :=
  match hs with
  | [] => true
  | h :: hs' =>
      (from <=? newStart h)%N && ascending (newStart h + newLen h) hs'
  end.

Definition markersOk (m : option (string * string)) : bool :=
  match m with
  | Some (a, b) => lineOk a && lineOk b
  | None => true
  end.

Definition valid (d : Diff) : bool :=
  markersOk (fileMarkers d) &&
  forallb hunkOk (hunks d) &&
  ascending 0 (hunks d) &&
  negb (match annotate d with [] => true | _ => false end).

(** A plain line: not the no-newline marker, and not an added line
    whose text begins with [++] (rendered, such a line begins with
    [+++], as the file marker does). *)
Definition plainLine (l : Tag * string) : bool :=
  match fst l with
  | Added => negb (startsWith "++" (snd l))
  | NoNewline => false
  | _ => true
  end.

Definition plainLines (d : Diff) : bool :=
  forallb (fun h => forallb plainLine (body h)) (hunks d).

End Diff.

(* ================================================================== *)
(** * Results, exceptions *)
(* ================================================================== *)

(** The exceptions the two scripts meet.  The text of a [SyntaxError]
    raised by [JSON.parse] is the engine's own and is not modelled. *)
Inductive JsError :=
| SyntaxError
| TypeError (message : string)
| Error (message : string)
| SystemError (code : string).     (* a failing [fs] call: ENOENT, EISDIR *)

Inductive result (A : Type) :=
| Ok (a : A)
| Throw (e : JsError).
Arguments Ok {A} a.
Arguments Throw {A} e.

(** Sequencing: a [Throw] skips what follows, as an exception does.
    The instances give the notation [x ← r; k]. *)
#[global] Instance result_ret : MRet result := fun A a => Ok a.
#[global] Instance result_bind : MBind result := fun A B k r =>
  match r with
  | Ok a => k a
  | Throw e => Throw e
  end.

(* ================================================================== *)
(** * [JSON.parse] *)
(* ================================================================== *)

Module Json.
Import JsString.

(** A number as its text gives it: [mant * 10 ^ exp10]. *)
Record num := { mant : Z; exp10 : Z }.

(** A string value: its UTF-16 code units. *)
Definition jstring := list N.

Definition units (s : string) : jstring :=
  map N_of_ascii (list_ascii_of_string s).

#[warnings="-register-all"]
Inductive JSON :=
| JNull
| JBool (b : bool)
| JNumber (n : num)
| JString (s : jstring)
| JArray (elements : list JSON)
| JObject (members : list (jstring * JSON)).

(** ** Tokens *)

Inductive Token :=
| TLBrace | TRBrace | TLBracket | TRBracket | TColon | TComma
| TString (s : jstring)
| TNumber (n : num)
| TTrue | TFalse | TNull.

(** The lexer reads one character at a time; its state says what it
    is in the middle of.  Accumulated text is kept reversed. *)
Inductive LexState :=
| SStart
| SStr (acc : jstring)                       (* inside a string *)
| SEsc (acc : jstring)                       (* after a backslash *)
| SUni (acc : jstring) (k : nat) (v : N)     (* after \u and k hex digits *)
| SLit (rest : string) (tok : Token)         (* inside true, false, null *)
| SMinus                                     (* after the sign *)
| SZero (neg : bool)                         (* integer part 0 *)
| SInt (neg : bool) (m : N)                  (* integer part *)
| SDot (neg : bool) (m : N)                  (* after the point *)
| SFrac (neg : bool) (m : N) (scale : N)     (* fraction digits *)
| SE (neg : bool) (m : N) (scale : N)        (* after e or E *)
| SESign (neg : bool) (m : N) (scale : N) (eneg : bool)
| SExp (neg : bool) (m : N) (scale : N) (eneg : bool) (e : N).

Definition mkNum (neg : bool) (m scale : N) (eneg : bool) (e : N) : num :=
  {| mant := if neg then - Z.of_N m else Z.of_N m;
     exp10 := (if eneg then - Z.of_N e else Z.of_N e) - Z.of_N scale |}.

Definition isChar (c : ascii) (d : ascii) : bool := Ascii.eqb c d.

(** JSON white space: space, TAB, LF, CR. *)
Definition isJsonSpace (c : ascii) : bool :=
  isChar c " " || isChar c "009" || isChar c "010" || isChar c "013".

Definition digitVal (c : ascii) : N := (N_of_ascii c - 48)%N.

Definition hexVal (c : ascii) : option N :=
  let n := N_of_ascii c in
  if ((48 <=? n) && (n <=? 57))%N then Some (n - 48)%N
  else if ((97 <=? n) && (n <=? 102))%N then Some (n - 87)%N
  else if ((65 <=? n) && (n <=? 70))%N then Some (n - 55)%N
  else None.

(** A character met between tokens. *)
Definition stepStart (c : ascii) : option (list Token * LexState) :=
  if isJsonSpace c then Some ([], SStart)
  else if isChar c "{" then Some ([TLBrace], SStart)
  else if isChar c "}" then Some ([TRBrace], SStart)
  else if isChar c "[" then Some ([TLBracket], SStart)
  else if isChar c "]" then Some ([TRBracket], SStart)
  else if isChar c ":" then Some ([TColon], SStart)
  else if isChar c "," then Some ([TComma], SStart)
  else if isChar c dquote then Some ([], SStr [])
  else if isChar c "-" then Some ([], SMinus)
  else if isChar c "0" then Some ([], SZero false)
  else if isDigit c then Some ([], SInt false (digitVal c))
  else if isChar c "t" then Some ([], SLit "rue" TTrue)
  else if isChar c "f" then Some ([], SLit "alse" TFalse)
  else if isChar c "n" then Some ([], SLit "ull" TNull)
  else None.

(** A number ends at the first character that cannot continue it; that
    character is then read as one between tokens. *)
Definition endNumber (n : num) (c : ascii) : option (list Token * LexState) :=
  match stepStart c with
  | Some (ts, st) => Some (TNumber n :: ts, st)
  | None => None
  end.

Definition isExpMark (c : ascii) : bool := isChar c "e" || isChar c "E".

Definition step (st : LexState) (c : ascii) : option (list Token * LexState) :=
  match st with
  | SStart => stepStart c
  | SStr acc =>
      if isChar c dquote then Some ([TString (rev acc)], SStart)
      else if isChar c "\" then Some ([], SEsc acc)
      else if (N_of_ascii c <? 32)%N then None
      else Some ([], SStr (N_of_ascii c :: acc))
  | SEsc acc =>
      if isChar c dquote || isChar c "\" || isChar c "/" then Some ([], SStr (N_of_ascii c :: acc))
      else if isChar c "b" then Some ([], SStr (8%N :: acc))
      else if isChar c "f" then Some ([], SStr (12%N :: acc))
      else if isChar c "n" then Some ([], SStr (10%N :: acc))
      else if isChar c "r" then Some ([], SStr (13%N :: acc))
      else if isChar c "t" then Some ([], SStr (9%N :: acc))
      else if isChar c "u" then Some ([], SUni acc 0 0%N)
      else None
  | SUni acc k v =>
      match hexVal c with
      | Some h =>
          let v' := (16 * v + h)%N in
          if (k =? 3)%nat then Some ([], SStr (v' :: acc))
          else Some ([], SUni acc (S k) v')
      | None => None
      end
  | SLit rest tok =>
      match rest with
      | String x EmptyString => if isChar c x then Some ([tok], SStart) else None
      | String x rest' => if isChar c x then Some ([], SLit rest' tok) else None
      | EmptyString => None
      end
  | SMinus =>
      if isChar c "0" then Some ([], SZero true)
      else if isDigit c then Some ([], SInt true (digitVal c))
      else None
  | SZero neg =>
      if isChar c "." then Some ([], SDot neg 0%N)
      else if isExpMark c then Some ([], SE neg 0%N 0%N)
      else endNumber (mkNum neg 0 0 false 0) c
  | SInt neg m =>
      if isDigit c then Some ([], SInt neg (10 * m + digitVal c)%N)
      else if isChar c "." then Some ([], SDot neg m)
      else if isExpMark c then Some ([], SE neg m 0%N)
      else endNumber (mkNum neg m 0 false 0) c
  | SDot neg m =>
      if isDigit c then Some ([], SFrac neg (10 * m + digitVal c)%N 1%N)
      else None
  | SFrac neg m scale =>
      if isDigit c then Some ([], SFrac neg (10 * m + digitVal c)%N (scale + 1)%N)
      else if isExpMark c then Some ([], SE neg m scale)
      else endNumber (mkNum neg m scale false 0) c
  | SE neg m scale =>
      if isChar c "+" then Some ([], SESign neg m scale false)
      else if isChar c "-" then Some ([], SESign neg m scale true)
      else if isDigit c then Some ([], SExp neg m scale false (digitVal c))
      else None
  | SESign neg m scale eneg =>
      if isDigit c then Some ([], SExp neg m scale eneg (digitVal c))
      else None
  | SExp neg m scale eneg e =>
      if isDigit c then Some ([], SExp neg m scale eneg (10 * e + digitVal c)%N)
      else endNumber (mkNum neg m scale eneg e) c
  end.

(** The end of the text. *)
Definition finish (st : LexState) : option (list Token) :=
  match st with
  | SStart => Some []
  | SZero neg => Some [TNumber (mkNum neg 0 0 false 0)]
  | SInt neg m => Some [TNumber (mkNum neg m 0 false 0)]
  | SFrac neg m scale => Some [TNumber (mkNum neg m scale false 0)]
  | SExp neg m scale eneg e => Some [TNumber (mkNum neg m scale eneg e)]
  | _ => None
  end.

Fixpoint lexFrom (st : LexState) (s : string) : option (list Token) :=
  match s with
  | EmptyString => finish st
  | String c s' =>
      match step st c with
      | Some (ts, st') =>
          match lexFrom st' s' with
          | Some ts' => Some (ts ++ ts')%list
          | None => None
          end
      | None => None
      end
  end.

Definition lex (s : string) : option (list Token) := lexFrom SStart s.

(** ** The grammar, read with a stack of open containers *)

Inductive Frame :=
| FArr (elems : list JSON)                               (* reversed *)
| FObj (members : list (jstring * JSON))                 (* reversed *)
| FObjVal (members : list (jstring * JSON)) (key : jstring).

Inductive Mode :=
| MValue          (* a value starts here *)
| MValueOrEnd     (* after [[]: a value or the closing bracket *)
| MKeyOrEnd       (* after [{]: a key or the closing brace *)
| MKey            (* after a comma in an object *)
| MColon (key : jstring)
| MAfter          (* after a value in a container *)
| MDone (v : JSON).

(** A value is complete: it goes into the innermost open container, or
    it is the result. *)
Definition complete (v : JSON) (stack : list Frame) : option (Mode * list Frame) :=
  match stack with
  | [] => Some (MDone v, [])
  | FArr es :: st => Some (MAfter, FArr (v :: es) :: st)
  | FObjVal ms k :: st => Some (MAfter, FObj ((k, v) :: ms) :: st)
  | FObj _ :: _ => None
  end.

Definition startValue (t : Token) (stack : list Frame) : option (Mode * list Frame) :=
  match t with
  | TNull => complete JNull stack
  | TTrue => complete (JBool true) stack
  | TFalse => complete (JBool false) stack
  | TNumber n => complete (JNumber n) stack
  | TString s => complete (JString s) stack
  | TLBracket => Some (MValueOrEnd, FArr [] :: stack)
  | TLBrace => Some (MKeyOrEnd, FObj [] :: stack)
  | _ => None
  end.

Definition closeArray (stack : list Frame) : option (Mode * list Frame) :=
  match stack with
  | FArr es :: st => complete (JArray (rev es)) st
  | _ => None
  end.

Definition closeObject (stack : list Frame) : option (Mode * list Frame) :=
  match stack with
  | FObj ms :: st => complete (JObject (rev ms)) st
  | _ => None
  end.

Definition feed (mode : Mode) (stack : list Frame) (t : Token)
  : option (Mode * list Frame) :=
  match mode with
  | MValue => startValue t stack
  | MValueOrEnd =>
      match t with
      | TRBracket => closeArray stack
      | _ => startValue t stack
      end
  | MKeyOrEnd =>
      match t with
      | TString k => Some (MColon k, stack)
      | TRBrace => closeObject stack
      | _ => None
      end
  | MKey =>
      match t with
      | TString k => Some (MColon k, stack)
      | _ => None
      end
  | MColon k =>
      match t, stack with
      | TColon, FObj ms :: st => Some (MValue, FObjVal ms k :: st)
      | _, _ => None
      end
  | MAfter =>
      match t, stack with
      | TComma, FArr _ :: _ => Some (MValue, stack)
      | TComma, FObj _ :: _ => Some (MKey, stack)
      | TRBracket, _ => closeArray stack
      | TRBrace, _ => closeObject stack
      | _, _ => None
      end
  | MDone _ => None
  end.

Fixpoint run (mode : Mode) (stack : list Frame) (ts : list Token) : option JSON :=
  match ts with
  | [] => match mode with MDone v => Some v | _ => None end
  | t :: ts' =>
      match feed mode stack t with
      | Some (mode', stack') => run mode' stack' ts'
      | None => None
      end
  end.

(** [JSON.parse(text)]; [None] when it throws a [SyntaxError]. *)
Definition JSON_parse (text : string) : option JSON :=
  match lex text with
  | Some ts => run MValue [] ts
  | None => None
  end.

(** ** What the scripts ask of a parsed value *)

Inductive JsType := TyObject | TyBoolean | TyNumber | TyString | TyUndefined.

(** [typeof v]; [typeof null] is ["object"], and so is that of an array. *)
Definition typeof (v : option JSON) : JsType :=
  match v with
  | None => TyUndefined
  | Some JNull => TyObject
  | Some (JBool _) => TyBoolean
  | Some (JNumber _) => TyNumber
  | Some (JString _) => TyString
  | Some (JArray _) => TyObject
  | Some (JObject _) => TyObject
  end.

Definition JsType_eqb (a b : JsType) : bool :=
  match a, b with
  | TyObject, TyObject | TyBoolean, TyBoolean | TyNumber, TyNumber
  | TyString, TyString | TyUndefined, TyUndefined => true
  | _, _ => false
  end.

Definition jstring_eqb (a b : jstring) : bool :=
  bool_decide (a = b).

(** The value of an own property: of two members with one key the later
    one stays. *)
Fixpoint lookup (key : jstring) (ms : list (jstring * JSON)) : option JSON :=
  match ms with
  | [] => None
  | (k, v) :: ms' =>
      match lookup key ms' with
      | Some v' => Some v'
      | None => if jstring_eqb k key then Some v else None
      end
  end.

(** [v.key] for the keys [line] and [comment], which only an object
    read from the text can have; on [null] the access throws. *)
Definition getProp (v : JSON) (key : string) : result (option JSON) :=
  match v with
  | JNull =>
      Throw (TypeError ("Cannot read properties of null (reading '" ++ key ++ "')"))
  | JObject ms => Ok (lookup (units key) ms)
  | _ => Ok None
  end.


(** [n > 0] for the binary64 value nearest to [n]: the decimal rounds to
    zero exactly when it is at most [2 ^ -1075], half the least positive
    binary64 number. *)
Definition gt0 (n : num) : bool :=
  (0 <? mant n) &&
  (if 0 <=? exp10 n then true
   else 10 ^ (- exp10 n) <? mant n * 2 ^ 1075).

End Json.

(* ================================================================== *)
(** * The review-list parser ([getReview], lines 61-90) *)
(* ================================================================== *)

Module Review.
Import JsString Json.

(** What the request to the model came to: it failed, or it gave
    [response?.content?.[0]?.text], which may be [undefined]. *)
Inductive ApiOutcome :=
| ApiFails (e : JsError)
| ApiText (text : option string).

(** The [core] calls of [getReview], one constructor a call site. *)
Inductive LogEntry :=
| InfoRequesting (filename : string)
| WarningInvalidFormat (e : JsError)
| ErrorFailedToGenerate (filename : string) (e : JsError).

(** [text?.trim() || null] *)
Definition reviewTextOf (text : option string) : option string :=
  match text with
  | Some t => if truthy (trim t) then Some (trim t) else None
  | None => None
  end.

(** [JSON.parse(reviewText)]; the argument [null] is read as the text
    [null]. *)
Definition parseReviewText (reviewText : option string) : result JSON :=
  match reviewText with
  | Some t =>
      match JSON_parse t with
      | Some v => Ok v
      | None => Throw SyntaxError
      end
  | None => Ok JNull
  end.

Definition numberGt0 (v : option JSON) : bool :=
  match v with Some (JNumber n) => gt0 n | _ => false end.

Definition lengthGt0 (v : option JSON) : bool :=
  match v with Some (JString s) => (0 <? length s)%nat | _ => false end.

(** The callback of [reviews.filter], its conjuncts in their order. *)
Definition validReview (review : JSON) : result bool :=
  if JsType_eqb (typeof (Some review)) TyObject then
    line ← getProp review "line";
    if JsType_eqb (typeof line) TyNumber then
      comment ← getProp review "comment";
      if JsType_eqb (typeof comment) TyString then
        Ok (numberGt0 line && lengthGt0 comment)
      else Ok false
    else Ok false
  else Ok false.

(** [reviews.filter(...)]: the callback runs on the elements in order,
    and what it throws leaves the filter. *)
Fixpoint filterReviews (reviews : list JSON) : result (list JSON) :=
  match reviews with
  | [] => Ok []
  | review :: rest =>
      keep ← validReview review;
      kept ← filterReviews rest;
      Ok (if (keep : bool) then review :: kept else kept)
  end.

(** The inner [try] block. *)
Definition validate (reviewText : option string) : result (list JSON) :=
  reviews ← parseReviewText reviewText;
  match reviews with
  | JArray elements => filterReviews elements
  | _ => Throw (Error "Response is not an array")
  end.

(** [getReview]: the reviews, or [None] for [null]; every exception is
    caught inside, so the outcome is always [Ok]. *)
Definition getReview (api : ApiOutcome) (filename : string)
  : result (option (list JSON)) * list LogEntry :=
  match api with
  | ApiFails e =>
      (Ok None, [InfoRequesting filename; ErrorFailedToGenerate filename e])
  | ApiText text =>
      match validate (reviewTextOf text) with
      | Ok reviews => (Ok (Some reviews), [InfoRequesting filename])
      | Throw e => (Ok None, [InfoRequesting filename; WarningInvalidFormat e])
      end
  end.

End Review.

(* ================================================================== *)
(** * The issue agent: solution parser and change application *)
(* ================================================================== *)

Module IssueAgent.
Import JsString Json.

Definition nl : string := String "010" EmptyString.

(** ** [analyzeIssueWithKnowledgeBase], lines 99-115 *)

(** The value of [jsonMatch]: the array that [String.prototype.match]
    returns (the whole match and capture group 1, [undefined] when the
    pattern has no group), or the response text itself. *)
Inductive Match :=
| MatchArray (whole : string) (group1 : option string)
| MatchString (s : string).

(** [/```json\n([\s\S]*?)\n```/]: the leftmost opening fence, and the
    shortest text up to a closing one. *)
Definition fencedMatch (s : string) : option Match :=
  match findSub ("```json" ++ nl) s with
  | Some (_, r) =>
      match findSub (nl ++ "```") r with
      | Some (inner, _) =>
          Some (MatchArray ("```json" ++ nl ++ inner ++ nl ++ "```") (Some inner))
      | None => None
      end
  | None => None
  end.

(** The prefix of [s] that ends with the last [c] in [s]. *)
Fixpoint upToLast (c : ascii) (s : string) : option string :=
  match s with
  | EmptyString => None
  | String a s' =>
      match upToLast c s' with
      | Some t => Some (String a t)
      | None => if Ascii.eqb a c then Some (String a EmptyString) else None
      end
  end.

(** [/{[\s\S]*}/]: from the first opening brace to the last closing
    brace after it. *)
Fixpoint braceMatch (s : string) : option Match :=
  match s with
  | EmptyString => None
  | String a s' =>
      if Ascii.eqb a "{"
      then match upToLast "}" s' with
           | Some t => Some (MatchArray (String a t) None)
           | None => None
           end
      else braceMatch s'
  end.

Definition jsonMatch (responseText : string) : Match :=
  match fencedMatch responseText with
  | Some m => m
  | None =>
      match braceMatch responseText with
      | Some m => m
      | None => MatchString responseText
      end
  end.

Definition matchTruthy (m : Match) : bool :=
  match m with
  | MatchArray _ _ => true
  | MatchString s => truthy s
  end.

(** [s[i]]: the one-character string at index [i]. *)
Fixpoint charAt (i : nat) (s : string) : option string :=
  match s, i with
  | EmptyString, _ => None
  | String c _, O => Some (String c EmptyString)
  | String _ s', S i' => charAt i' s'
  end.

(** [jsonMatch[i]]: an element of the match array, or a character of
    the string. *)
Definition index (m : Match) (i : nat) : option string :=
  match m, i with
  | MatchArray whole _, O => Some whole
  | MatchArray _ group1, S O => group1
  | MatchArray _ _, _ => None
  | MatchString s, _ => charAt i s
  end.

(** [jsonMatch ? (jsonMatch[1] || jsonMatch[0]) : responseText] *)
Definition jsonStr (responseText : string) : option string :=
  let m := jsonMatch responseText in
  if matchTruthy m
  then (if truthyOpt (index m 1) then index m 1 else index m 0)
  else Some responseText.

(** [.replace(/```json|```/g, '')]: [skip] characters of a match are
    still to be dropped. *)
Fixpoint stripFrom (skip : nat) (s : string) : string :=
  match s with
  | EmptyString => EmptyString
  | String c s' =>
      match skip with
      | S k => stripFrom k s'
      | O =>
          if startsWith "```json" s then stripFrom 6 s'
          else if startsWith "```" s then stripFrom 2 s'
          else String c (stripFrom 0 s')
      end
  end.

Definition stripFences (s : string) : string := stripFrom 0 s.

Inductive LogEntry :=
| ErrorFailedToParse (e : JsError)
| ErrorAnalyzing (e : JsError)
| LogSkippingInvalid (file : option string)
| LogFileDoesNotExist (filePath : string)
| LogUpdated (filePath : string)
| ErrorUpdating (filePath : string) (e : JsError).

Definition parseFailure : JsError :=
  Error "Failed to parse solution from AI response".

(** From the response text on: the parsed solution, or the exception
    that leaves the function. *)
Definition analyzeIssueWithKnowledgeBase (responseText : string)
  : result JSON * list LogEntry :=
  match jsonStr responseText with
  | Some str =>
      match JSON_parse (trim (stripFences str)) with
      | Some v => (Ok v, [])
      | None =>
          (Throw parseFailure,
           [ErrorFailedToParse SyntaxError; ErrorAnalyzing parseFailure])
      end
  | None =>
      (Throw parseFailure,
       [ErrorFailedToParse (TypeError "Cannot read properties of undefined (reading 'replace')");
        ErrorAnalyzing parseFailure])
  end.

(** ** [applyChanges], lines 118-153 *)

Record ChangeSpec := {
  file        : option string;
  original    : option string;
  replacement : option string
}.

(** [GetSubstitution] for a string pattern, which has no capture
    groups: [$$] is a dollar, [$&] the matched text, [$`] what
    precedes the match, [$'] what follows it; every other character,
    a dollar before digits or [<] too, stands for itself. *)
Fixpoint getSubstitution (matched before after template : string) : string :=
  match template with
  | EmptyString => EmptyString
  | String c t =>
      if Ascii.eqb c "$" then
        match t with
        | String d t' =>
            if Ascii.eqb d "$" then String "$" (getSubstitution matched before after t')
            else if Ascii.eqb d "&" then matched ++ getSubstitution matched before after t'
            else if Ascii.eqb d "`" then before ++ getSubstitution matched before after t'
            else if Ascii.eqb d "'" then after ++ getSubstitution matched before after t'
            else String c (getSubstitution matched before after t)
        | EmptyString => String c EmptyString
        end
      else String c (getSubstitution matched before after t)
  end.

(** [content.replace(searchString, replaceValue)], both strings. *)
Definition replace (content searchString replaceValue : string) : string :=
  match findSub searchString content with
  | Some (before, after) =>
      before ++ getSubstitution searchString before after replaceValue ++ after
  | None => content
  end.

(** Lines 138-143: the new content of the file. *)
Definition applyChange (content : string) (change : ChangeSpec) : string :=
  let replacement := default EmptyString (replacement change) in
  match original change with
  | Some orig =>
      if truthy orig then replace content orig replacement else replacement
  | None => replacement
  end.

(** The working tree: a path names a file with its content or a
    directory. *)
Inductive Node :=
| File (content : string)
| Directory.

Definition existsSync (fs : gmap string Node) (p : string) : bool :=
  bool_decide (is_Some (fs !! p)).

Definition readFileSync (fs : gmap string Node) (p : string) : result string :=
  match fs !! p with
  | Some (File content) => Ok content
  | Some Directory => Throw (SystemError "EISDIR")
  | None => Throw (SystemError "ENOENT")
  end.

Definition writeFileSync (fs : gmap string Node) (p content : string)
  : result (gmap string Node) :=
  match fs !! p with
  | Some Directory => Throw (SystemError "EISDIR")
  | _ => Ok (<[p := File content]> fs)
  end.

(** The loop over [solution.changes]: the outcome, the tree it leaves
    (also when it throws) and what it logged. *)
Fixpoint applyChanges (changes : list ChangeSpec) (fs : gmap string Node)
  : result unit * gmap string Node * list LogEntry :=
  match changes with
  | [] => (Ok tt, fs, [])
  | change :: rest =>
      if negb (truthyOpt (file change)) || negb (truthyOpt (replacement change))
      then
        let '(r, fs', log) := applyChanges rest fs in
        (r, fs', LogSkippingInvalid (file change) :: log)
      else
        let filePath := default EmptyString (file change) in
        if negb (existsSync fs filePath)
        then
          let '(r, fs', log) := applyChanges rest fs in
          (r, fs', LogFileDoesNotExist filePath :: log)
        else
          match content ← readFileSync fs filePath;
                writeFileSync fs filePath (applyChange content change) with
          | Ok fs1 =>
              let '(r, fs', log) := applyChanges rest fs1 in
              (r, fs', LogUpdated filePath :: log)
          | Throw e => (Throw e, fs, [ErrorUpdating filePath e])
          end
  end.

End IssueAgent.

(* ================================================================== *)
(** * The behaviour the specification words, to compare the code with *)
(* ================================================================== *)

Module Spec.
Import JsString Json IssueAgent.

(** What the specification asks of an element that is kept. *)
Definition wellFormedReview (v : JSON) : bool :=
  match v with
  | JObject ms =>
      match lookup (units "line") ms, lookup (units "comment") ms with
      | Some (JNumber n), Some (JString s) => gt0 n && (0 <? length s)%nat
      | _, _ => false
      end
  | _ => false
  end.

(** [o] occurs in [content] with [before] in front of it. *)
Definition occursAt (o content before after : string) : Prop :=
  content = before ++ o ++ after.

(** The occurrence after [before] is the first one: none starts
    further left. *)
Definition firstOccurrence (o content before after : string) : Prop :=
  occursAt o content before after /\
  forall b a, occursAt o content b a -> (String.length before <= String.length b)%nat.

Definition occurs (o content : string) : Prop :=
  exists before after, occursAt o content before after.

(** The replacement text holds none of the two-character patterns that
    [String.prototype.replace] expands. *)
Definition isPatternChar (d : ascii) : bool :=
  Ascii.eqb d "$" || Ascii.eqb d "&" || Ascii.eqb d "`" || Ascii.eqb d "'".

Fixpoint plainTemplate (t : string) : bool :=
  match t with
  | EmptyString => true
  | String c t' =>
      negb (Ascii.eqb c "$" &&
            match t' with
            | String d _ => isPatternChar d
            | EmptyString => false
            end)
      && plainTemplate t'
  end.

(** Section 4.3 read by the letter: a present [original], empty or not,
    has its first occurrence replaced by [replacement] as it stands. *)
Definition specApplyChange (content : string) (change : ChangeSpec) : string :=
  let r := default EmptyString (replacement change) in
  match original change with
  | Some o =>
      match findSub o content with
      | Some (before, after) => before ++ r ++ after
      | None => content
      end
  | None => r
  end.

(** The brace that closes the region: [depth] braces are open inside
    it, and braces inside string literals do not count. *)
Fixpoint closeBrace (depth : nat) (inString escaped : bool) (s : string)
  : option string :=
  match s with
  | EmptyString => None
  | String c s' =>
      if inString then
        if escaped then String c <$> closeBrace depth true false s'
        else if Ascii.eqb c "\" then String c <$> closeBrace depth true true s'
        else if Ascii.eqb c dquote then String c <$> closeBrace depth false false s'
        else String c <$> closeBrace depth true false s'
      else
        if Ascii.eqb c dquote then String c <$> closeBrace depth true false s'
        else if Ascii.eqb c "{" then String c <$> closeBrace (S depth) false false s'
        else if Ascii.eqb c "}" then
          match depth with
          | O => Some (String c EmptyString)
          | S d => String c <$> closeBrace d false false s'
          end
        else String c <$> closeBrace depth false false s'
  end.

(** The first top-level brace-delimited region. *)
Fixpoint firstBraceRegion (s : string) : option string :=
  match s with
  | EmptyString => None
  | String c s' =>
      if Ascii.eqb c "{" then String c <$> closeBrace 0 false false s'
      else firstBraceRegion s'
  end.

(** Section 4.2(b): the fenced block, else the first top-level region,
    else the raw text. *)
Definition specExtract (text : string) : string :=
  match fencedMatch text with
  | Some (MatchArray _ (Some inner)) => inner
  | _ =>
      match firstBraceRegion text with
      | Some region => region
      | None => text
      end
  end.

Definition specParseSolution (text : string) : option JSON :=
  JSON_parse (trim (stripFences (specExtract text))).

(** [text] wrapped in a [```json] fence. *)
Definition fenced (text : string) : string :=
  "```json" ++ nl ++ text ++ nl ++ "```".

End Spec.

(* ================================================================== *)
(** * Predicates on texts, lexer states and parser stacks *)
(* ================================================================== *)

Module Shape.
Import JsString Locator Json IssueAgent.

Fixpoint allDigits (s : string) : bool :=
  match s with
  | EmptyString => true
  | String c s' => isDigit c && allDigits s'
  end.

Definition startsWithDigit (s : string) : bool :=
  match s with String c _ => isDigit c | EmptyString => false end.










Fixpoint allTrimSpace (s : string) : bool :=
  match s with
  | EmptyString => true
  | String c s' => isTrimSpace c && allTrimSpace s'
  end.


End Shape.

(* ================================================================== *)
(** * Example data *)
(* ================================================================== *)

Module Examples.
Import JsString Diff Json Review IssueAgent.

(** The diff of section 8: [@@ -1,3 +1,3 @@] then [@@ -10,2 +12,4 @@]. *)
Definition twoHunks : Diff :=
  {| fileMarkers := None;
     hunks :=
       [ {| oldStart := 1; oldLen := 3; newStart := 1; newLen := 3;
            heading := "";
            body := [(Context, "a"); (Removed, "b"); (Added, "B"); (Context, "c")] |};
         {| oldStart := 10; oldLen := 2; newStart := 12; newLen := 4;
            heading := " function run()";
            body := [(Context, "x"); (Added, "y"); (Added, "z"); (Context, "w")] |} ] |}.

(** A new file whose first line is the statement [++i;]. *)
Definition markerLikeAddition : Diff :=
  {| fileMarkers := None;
     hunks :=
       [ {| oldStart := 0; oldLen := 0; newStart := 1; newLen := 2;
            heading := "";
            body := [(Added, "++i;"); (Added, "x")] |} ] |}.

(** A hunk that starts with a removed line. *)
Definition leadingRemoval : Diff :=
  {| fileMarkers := None;
     hunks :=
       [ {| oldStart := 5; oldLen := 2; newStart := 5; newLen := 1;
            heading := "";
            body := [(Removed, "old"); (Context, "ctx")] |} ] |}.

(** A file whose last line has no line break at its end, before and
    after the change. *)
Definition noNewlineAtEnd : Diff :=
  {| fileMarkers := None;
     hunks :=
       [ {| oldStart := 1; oldLen := 1; newStart := 1; newLen := 1;
            heading := "";
            body := [(Removed, "a"); (NoNewline, " No newline at end of file");
                     (Added, "b"); (NoNewline, " No newline at end of file")] |} ] |}.

Definition entry5 : JSON :=
  JObject [ (units "line", JNumber {| mant := 5; exp10 := 0 |});
            (units "comment", JString (units "ok")) ].

(** The review list of section 8. *)
Definition exampleReviews : string :=
  "[{" ++ quoted "line" ++ ":5," ++ quoted "comment" ++ ":" ++ quoted "ok" ++ "}, {"
  ++ quoted "line" ++ ":-1," ++ quoted "comment" ++ ":" ++ quoted "bad" ++ "}, {"
  ++ quoted "foo" ++ ":1}]".

Definition reviewsWithNull : string :=
  "[{" ++ quoted "line" ++ ":5," ++ quoted "comment" ++ ":" ++ quoted "ok"
  ++ "}, null]".





Definition exampleChange : ChangeSpec :=
  {| file := Some "src/app.js";
     original := Some "x = 1";
     replacement := Some "x = 2" |}.

Definition wholeFileChange : ChangeSpec :=
  {| file := Some "src/app.js";
     original := Some "";
     replacement := Some "const y = 0;" |}.

Definition emptyReplacement : ChangeSpec :=
  {| file := Some "src/app.js";
     original := Some "x = 1";
     replacement := Some "" |}.

Definition dollarChange : ChangeSpec :=
  {| file := Some "src/price.js";
     original := Some "1";
     replacement := Some "$$5" |}.

Definition exampleTree : gmap string Node :=
  {[ "src/app.js" := File "const x = 1;" ]}.

End Examples.

(* ================================================================== *)
(** * The review driver ([createAnnotation], [reviewPR]) *)
(* ================================================================== *)

Module PrReview.
Import JsString Locator Json Review.

(** ** [createAnnotation], lines 3-23 *)

(** The annotation object; [M] is the type of message texts. *)
Record Annotation (M : Type) := {
  title : string;
  message : M;
  annotationFile : option string;
  annotationLine : option Z
}.
Arguments title {M} _.
Arguments message {M} _.
Arguments annotationFile {M} _.
Arguments annotationLine {M} _.

(** The call that the [switch] makes. *)
Inductive Emitted (M : Type) :=
| CoreError (text : M) (annotation : Annotation M)
| CoreWarning (text : M) (annotation : Annotation M)
| CoreNotice (text : M) (annotation : Annotation M)
| ConsoleLog (text : M).
Arguments CoreError {M} _ _.
Arguments CoreWarning {M} _ _.
Arguments CoreNotice {M} _ _.
Arguments ConsoleLog {M} _.

(** Truthiness of a possibly missing line number. *)
Definition truthyLine (line : option Z) : bool :=
  match line with Some z => negb (z =? 0) | None => false end.

Definition createAnnotation {M : Type} (type : string) (text : M)
           (file : option string) (line : option Z) : Emitted M :=
  let annotation :=
    {| title := "PR Review Bot";
       message := text;
       annotationFile := if truthyOpt file then file else None;
       annotationLine :=
         if truthyOpt file && truthyLine line then line else None |} in
  if String.eqb type "error" then CoreError text annotation
  else if String.eqb type "warning" then CoreWarning text annotation
  else if String.eqb type "notice" then CoreNotice text annotation
  else ConsoleLog text.

(** ** [reviewPR], lines 93-211 *)

(** An entry of the file list of the pull request. *)
Record PrFile := {
  status : string;
  filename : string;
  patch : option string
}.

(** The argument of [createReviewComment]. *)
Record ReviewComment := {
  body : option JSON;
  commit_id : string;
  path : string;
  position : nat
}.

(** What a failing request throws: [error.status] and [error.message]. *)
Record RequestError := {
  errorStatus : option N;
  errorMessage : string
}.

(** What can be caught in the loop over the files. *)
Inductive Thrown :=
| ThrownJs (e : JsError)
| ThrownRequest (e : RequestError).

(** [error.status]; an exception of the language has none. *)
Definition statusOf (t : Thrown) : option N :=
  match t with
  | ThrownJs _ => None
  | ThrownRequest e => errorStatus e
  end.

(** The message texts that [reviewPR] builds. *)
Inductive Message :=
| FailedToReview (filename : string) (error : Thrown)
| Completed (processed skipped errors : nat)
| ProcessFailed (error : RequestError).

Inductive LogEntry :=
| InfoStarting
| InfoFound (files : nat)
| InfoDetails (title : string)
| InfoSkipping (filename : string)
| InfoFetching (filename : string)
| InfoReviewing (filename : string)
| FromGetReview (entry : Review.LogEntry)
| WarningNoPatch (filename : string)
| WarningNoPosition (line : option JSON) (filename : string)
| InfoNotFound (filename : string)
| Annotated (call : Emitted Message)
| InfoCompleted
| ErrorProcessFailed (error : RequestError).

(** ASCII letters in lower case, as the flag [i] compares them. *)
Definition toLower (c : ascii) : ascii :=
  let n := N_of_ascii c in
  if ((65 <=? n) && (n <=? 90))%N then ascii_of_N (n + 32) else c.

Fixpoint lowerCase (s : string) : string :=
  match s with
  | EmptyString => EmptyString
  | String c s' => String (toLower c) (lowerCase s')
  end.

(** [s.endsWith(suffix)] *)
Fixpoint endsWith (suffix s : string) : bool :=
  String.eqb suffix s ||
  match s with
  | EmptyString => false
  | String _ s' => endsWith suffix s'
  end.

Definition binaryExtensions : list string :=
  ["pdf"; "docx"; "prof"; "png"; "jpg"; "jpeg"; "gif"].

(** [filename.match(/\.(pdf|docx|prof|png|jpg|jpeg|gif)$/i)] is not
    [null]. *)
Definition hasBinaryExtension (filename : string) : bool :=
  existsb (fun ext => endsWith ("." ++ ext) (lowerCase filename)) binaryExtensions.

(** The test at the head of the loop over the files. *)
Definition skipFile (file : PrFile) : bool :=
  String.eqb (status file) "removed" || hasBinaryExtension (filename file).

(** The counters and outputs of a run. *)
Record State := {
  posted : list ReviewComment;     (* comments created, in order *)
  requests : nat;                  (* calls of [createReviewComment] *)
  processedFiles : nat;
  skippedFiles : nat;
  errorFiles : nat;
  log : list LogEntry
}.

Definition start : State :=
  {| posted := []; requests := 0; processedFiles := 0;
     skippedFiles := 0; errorFiles := 0; log := [] |}.

Definition logged (st : State) (entries : list LogEntry) : State :=
  {| posted := posted st; requests := requests st;
     processedFiles := processedFiles st;
     skippedFiles := skippedFiles st; errorFiles := errorFiles st;
     log := (log st ++ entries)%list |}.

Definition skipped (st : State) : State :=
  {| posted := posted st; requests := requests st;
     processedFiles := processedFiles st;
     skippedFiles := S (skippedFiles st); errorFiles := errorFiles st;
     log := log st |}.

Definition failed (st : State) : State :=
  {| posted := posted st; requests := requests st;
     processedFiles := processedFiles st;
     skippedFiles := skippedFiles st; errorFiles := S (errorFiles st);
     log := log st |}.

Definition requested (st : State) : State :=
  {| posted := posted st; requests := S (requests st);
     processedFiles := processedFiles st;
     skippedFiles := skippedFiles st; errorFiles := errorFiles st;
     log := log st |}.

Definition created (st : State) (c : ReviewComment) : State :=
  {| posted := (posted st ++ [c])%list; requests := S (requests st);
     processedFiles := S (processedFiles st);
     skippedFiles := skippedFiles st; errorFiles := errorFiles st;
     log := log st |}.

Section Driver.

(** The integer that a number read from the model's text equals as
    a JavaScript number, when it equals one. *)
Variable lineOf : num -> option Z.

(** What the request number [n] (from 0) to create a comment comes
    to: [None] when it succeeds. *)
Variable createReviewComment : nat -> option RequestError.

(** Lines 143-169 for the value of [review.line]: only a number can
    be [===] to the counter. *)
Definition positionOf (patchText : string) (line : option JSON) : option nat :=
  match line with
  | Some (JNumber n) =>
      match lineOf n with
      | Some target => findPosition patchText target
      | None => None
      end
  | _ => None
  end.

(** The loop over the reviews of one file; it ends with the
    exception that leaves it, if any. *)
Fixpoint postReviews (file : PrFile) (sha : string) (reviews : list JSON)
         (st : State) : State * option Thrown :=
  match reviews with
  | [] => (st, None)
  | review :: rest =>
      if negb (truthyOpt (patch file)) then
        postReviews file sha rest (logged st [WarningNoPatch (filename file)])
      else
        match getProp review "line" with
        | Throw e => (st, Some (ThrownJs e))
        | Ok line =>
            match positionOf (default EmptyString (patch file)) line with
            | Some p =>
                match getProp review "comment" with
                | Throw e => (st, Some (ThrownJs e))
                | Ok comment =>
                    match createReviewComment (requests st) with
                    | None =>
                        postReviews file sha rest
                          (created st {| body := comment; commit_id := sha;
                                         path := filename file;
                                         position := p |})
                    | Some e => (requested st, Some (ThrownRequest e))
                    end
                end
            | None =>
                postReviews file sha rest
                  (logged st [WarningNoPosition line (filename file)])
            end
        end
  end.

(** The [catch] of the loop over the files. *)
Definition caught (file : PrFile) (st : State) (t : Thrown) : State :=
  match statusOf t with
  | Some 404%N => skipped (logged st [InfoNotFound (filename file)])
  | _ =>
      logged (failed st)
        [Annotated (createAnnotation "error"
                      (FailedToReview (filename file) t)
                      (Some (filename file)) None)]
  end.

(** The body of the [try] for one file, with the answer of the
    model to the request for it. *)
Definition reviewFile (file : PrFile) (sha : string) (api : ApiOutcome)
           (st : State) : State :=
  let st1 := logged st [InfoFetching (filename file);
                        InfoReviewing (filename file)] in
  let '(reviews, entries) := getReview api (filename file) in
  let st2 := logged st1 (map FromGetReview entries) in
  match reviews with
  | Ok (Some reviews) =>
      match postReviews file sha reviews st2 with
      | (st3, None) => st3
      | (st3, Some t) => caught file st3 t
      end
  | Ok None => st2
  | Throw e => caught file st2 (ThrownJs e)
  end.

(** The loop over the files, each with the answer of the model. *)
Fixpoint reviewFiles (sha : string) (files : list (PrFile * ApiOutcome))
         (st : State) : State :=
  match files with
  | [] => st
  | (file, api) :: rest =>
      if skipFile file then
        reviewFiles sha rest
          (skipped (logged st [InfoSkipping (filename file)]))
      else reviewFiles sha rest (reviewFile file sha api st)
  end.

(** The answers to [pulls.listFiles] and [pulls.get]. *)
Inductive Listing :=
| ListFails (e : RequestError)
| Listed (files : list (PrFile * ApiOutcome)).

Inductive Details :=
| GetFails (e : RequestError)
| Got (title : string) (headSha : string).

Definition processFailed (e : RequestError) (soFar : list LogEntry)
  : option RequestError * State :=
  (Some e,
   logged start
     (soFar ++ [Annotated (createAnnotation "error" (ProcessFailed e) None None);
                ErrorProcessFailed e])%list).

(** [reviewPR]: the exception it rethrows, if any, and the state at
    its end. *)
Definition reviewPR (listing : Listing) (details : Details)
  : option RequestError * State :=
  match listing with
  | ListFails e => processFailed e [InfoStarting]
  | Listed files =>
      match details with
      | GetFails e => processFailed e [InfoStarting; InfoFound (length files)]
      | Got title sha =>
          let st :=
            reviewFiles sha files
              (logged start [InfoStarting; InfoFound (length files);
                             InfoDetails title]) in
          (None,
           logged st
             [Annotated
                (createAnnotation "notice"
                   (Completed (processedFiles st) (skippedFiles st)
                              (errorFiles st)) None None);
              InfoCompleted])
      end
  end.

End Driver.

End PrReview.

(* ================================================================== *)
(** * The base branch ([extractBranchInfo], [processIssue] lines 162-167) *)
(* ================================================================== *)

Module BranchInfo.
Import JsString Json Review Diff.

Inductive LogEntry :=
| ErrorFailedToParseBranch (e : JsError)
| ErrorExtracting (e : JsError).

(** The text parsed when the model gave none. *)
Definition defaultText : string := "{" ++ quoted "branch" ++ ": null}".

(** [text?.trim() || '{"branch": null}'] *)
Definition extractedTextOf (text : option string) : string :=
  match text with
  | Some t => if truthy (trim t) then trim t else defaultText
  | None => defaultText
  end.

(** [extractBranchInfo]: the value of [result.branch] ([None] for
    [undefined]), or [null] after an exception. *)
Definition extractBranchInfo (api : ApiOutcome) : option JSON * list LogEntry :=
  match api with
  | ApiFails e => (Some JNull, [ErrorExtracting e])
  | ApiText text =>
      match JSON_parse (extractedTextOf text) with
      | Some parsed =>
          match getProp parsed "branch" with
          | Ok branch => (branch, [])
          | Throw e => (Some JNull, [ErrorFailedToParseBranch e])
          end
      | None => (Some JNull, [ErrorFailedToParseBranch SyntaxError])
      end
  end.

(** A number that is zero as a JavaScript number. *)
Definition nonZero (n : num) : bool :=
  gt0 {| mant := Z.abs (mant n); exp10 := exp10 n |}.

(** Truthiness of a value. *)
Definition truthyJson (v : option JSON) : bool :=
  match v with
  | None => false
  | Some JNull => false
  | Some (JBool b) => b
  | Some (JNumber n) => nonZero n
  | Some (JString s) => match s with [] => false | _ => true end
  | Some (JArray _) => true
  | Some (JObject _) => true
  end.

(** [baseBranch || 'main'] *)
Definition baseBranch (api : ApiOutcome) : JSON :=
  match fst (extractBranchInfo api) with
  | Some v => if truthyJson (Some v) then v else JString (units "main")
  | None => JString (units "main")
  end.

(** [`issue-${issue.number}`] for the number of an issue, an integer
    that the template writes in plain decimal digits. *)
Definition newBranch (number : N) : string := "issue-" ++ dec number.

End BranchInfo.

(* ================================================================== *)
(** * Predicates and examples for the properties of the driver *)
(* ================================================================== *)

Module PrShape.
Import JsString Json PrReview.

(** A comment as the driver may create it for [file]: on the head
    commit, on the file by its name, at a line of the patch, with a
    text that is not empty. *)
Definition commentFor (sha : string) (file : PrFile) (c : ReviewComment) : Prop :=
  commit_id c = sha /\ path c = filename file /\ skipFile file = false /\
  (exists p, patch file = Some p /\ p <> EmptyString /\
             (1 <= position c <= length (split_nl p))%nat) /\
  (exists s, body c = Some (JString s) /\ s <> []).

(** Two states that differ in the log at most. *)
Definition sameCounts (a b : State) : Prop :=
  posted a = posted b /\ requests a = requests b /\
  processedFiles a = processedFiles b /\
  skippedFiles a = skippedFiles b /\ errorFiles a = errorFiles b.

(** What [getProp] reads from an element that passed the filter. *)
Definition lineAndComment (review : JSON) : Prop :=
  exists ms n s,
    review = JObject ms /\
    lookup (units "line") ms = Some (JNumber n) /\
    lookup (units "comment") ms = Some (JString s) /\ s <> [].

End PrShape.

Module PrExamples.
Import JsString Diff Json Review PrReview Examples.

(** Numbers written without fraction and exponent. *)
Definition integerLine (n : num) : option Z :=
  if exp10 n =? 0 then Some (mant n) else None.

Definition unprocessable : RequestError :=
  {| errorStatus := Some 422%N; errorMessage := "Unprocessable Entity" |}.

(** The second request to create a comment is refused. *)
Definition secondFails (n : nat) : option RequestError :=
  if Nat.eqb n 1 then Some unprocessable else None.

Definition changedFile : PrFile :=
  {| status := "modified"; filename := "src/app.js";
     patch := Some (render twoHunks) |}.

Definition reviewAt (line : Z) (comment : string) : string :=
  "{" ++ quoted "line" ++ ": " ++ dec (Z.to_N line) ++ ", " ++
  quoted "comment" ++ ": " ++ quoted comment ++ "}".

(** Three comments, on lines 1, 13 and 14 of the new file. *)
Definition threeReviews : string :=
  "[" ++ reviewAt 1 "first" ++ ", " ++ reviewAt 13 "second" ++ ", " ++
  reviewAt 14 "third" ++ "]".

Definition picture : PrFile :=
  {| status := "added"; filename := "docs/Logo.PNG"; patch := None |}.

End PrExamples.

Module BranchShape.
Import JsString Json.

(** Characters that stand for themselves inside a JSON string: no
    double quote, no backslash, no control character. *)
Fixpoint plainText (s : string) : bool :=
  match s with
  | EmptyString => true
  | String c s' =>
      negb (isChar c dquote) && negb (isChar c "\") &&
      negb (N_of_ascii c <? 32)%N && plainText s'
  end.

(** The answer asked of the model: an object with the one member
    [branch]. *)
Definition branchAnswer (name : string) : string :=
  "{" ++ quoted "branch" ++ ": " ++ quoted name ++ "}".

End BranchShape.

(* ================================================================== *)
(** * The loop of [applyChanges] with the names of the files resolved *)
(* ================================================================== *)

Module Paths.
Import JsString Json IssueAgent.

Section Resolved.

(** The file that a path text names, as the file system resolves
    it: [./a.txt], an absolute path and a link to the file
    resolve to the name of the one file.  The tree is keyed by
    these names. *)
Variable resolve : string -> string.

(** Lines 119-152 of [applyChanges], every access to the tree made
    under the name that the path resolves to; the tests on
    [change.file] and the log lines use the path as written. *)
Fixpoint applyChangesAt (changes : list ChangeSpec) (fs : gmap string Node)
  : result unit * gmap string Node * list LogEntry :=
  match changes with
  | [] => (Ok tt, fs, [])
  | change :: rest =>
      if negb (truthyOpt (file change)) || negb (truthyOpt (replacement change))
      then
        let '(r, fs', log) := applyChangesAt rest fs in
        (r, fs', LogSkippingInvalid (file change) :: log)
      else
        let filePath := default EmptyString (file change) in
        if negb (existsSync fs (resolve filePath))
        then
          let '(r, fs', log) := applyChangesAt rest fs in
          (r, fs', LogFileDoesNotExist filePath :: log)
        else
          match content ← readFileSync fs (resolve filePath);
                writeFileSync fs (resolve filePath) (applyChange content change) with
          | Ok fs1 =>
              let '(r, fs', log) := applyChangesAt rest fs1 in
              (r, fs', LogUpdated filePath :: log)
          | Throw e => (Throw e, fs, [ErrorUpdating filePath e])
          end
  end.

End Resolved.

(** A resolution for examples: a leading [./] is dropped. *)
Definition fromHere (p : string) : string :=
  match dropPrefix "./" p with
  | Some r => r
  | None => p
  end.

Definition dottedChange : ChangeSpec :=
  {| file := Some "./src/app.js";
     original := Some "x = 1";
     replacement := Some "x = 2" |}.

Definition twoFiles : gmap string Node :=
  {[ "src/app.js" := File "const x = 1;"; "README.md" := File "Read me." ]}.

End Paths.

Module LexShape.
Import JsString Json Shape.


End LexShape.

Local Arguments String.append : simpl nomatch.

(* ================================================================== *)
(** * Facts about strings *)
(* ================================================================== *)

Module StringFacts.
Import JsString.

Lemma app_assoc (a b c : string) : (a ++ b) ++ c = a ++ (b ++ c).
Proof. induction a as [|x a IH]; simpl; [reflexivity | now rewrite IH]. Qed.

Lemma app_nil_r (a : string) : a ++ "" = a.
Proof. induction a as [|x a IH]; simpl; [reflexivity | now rewrite IH]. Qed.

Lemma length_app (a b : string) :
  String.length (a ++ b) = (String.length a + String.length b)%nat.
Proof. induction a as [|x a IH]; simpl; [reflexivity | now rewrite IH]. Qed.

Lemma startsWith_app (p s : string) : startsWith p (p ++ s) = true.
Proof.
  induction p as [|x p IH]; simpl; [reflexivity|].
  now rewrite Ascii.eqb_refl, IH.
Qed.

Lemma dropPrefix_app (p s : string) : dropPrefix p (p ++ s) = Some s.
Proof.
  induction p as [|x p IH]; simpl; [reflexivity|].
  now rewrite Ascii.eqb_refl.
Qed.

Lemma dropPrefix_Some (p s r : string) : dropPrefix p s = Some r -> s = p ++ r.
Proof.
  revert s; induction p as [|x p IH]; intros s; simpl.
  - now intros [= ->].
  - destruct s as [|y s]; [discriminate|].
    destruct (Ascii.eqb_spec x y) as [->|]; [|discriminate].
    intros H. now rewrite (IH _ H).
Qed.

Lemma dropPrefix_None (p s r : string) : dropPrefix p s = None -> s <> p ++ r.
Proof.
  intros H ->. now rewrite dropPrefix_app in H.
Qed.

Lemma lacks_app (c : ascii) (a b : string) :
  lacks c (a ++ b) = lacks c a && lacks c b.
Proof.
  induction a as [|x a IH]; simpl; [reflexivity|].
  now rewrite IH, andb_assoc.
Qed.

(** Splitting a text that holds no line break gives the text. *)
Lemma split_nl_line (l : string) : lacks "010" l = true -> split_nl l = [l].
Proof.
  induction l as [|x l IH]; simpl; [reflexivity|].
  intros [Hx Hl]%andb_prop. apply negb_true_iff in Hx.
  rewrite Hx, (IH Hl). reflexivity.
Qed.

Lemma split_nl_app (l rest : string) :
  lacks "010" l = true ->
  split_nl (l ++ String "010" rest) = l :: split_nl rest.
Proof.
  induction l as [|x l IH]; simpl; [reflexivity|].
  intros [Hx Hl]%andb_prop. apply negb_true_iff in Hx.
  rewrite Hx, (IH Hl). reflexivity.
Qed.

(** [split] undoes [join] on lines without line breaks. *)
Lemma split_join (ls : list string) :
  ls <> [] -> forallb (lacks "010") ls = true -> split_nl (join_nl ls) = ls.
Proof.
  induction ls as [|l ls IH]; [congruence|].
  intros _ [Hl Hls]%andb_prop.
  destruct ls as [|l' ls].
  - simpl. now apply split_nl_line.
  - change (join_nl (l :: l' :: ls)) with (l ++ String "010" (join_nl (l' :: ls))).
    rewrite (split_nl_app _ _ Hl), IH; [reflexivity | congruence | assumption].
Qed.

End StringFacts.

(* ================================================================== *)
(** * The locator on rendered diffs *)
(* ================================================================== *)

Module LocatorFacts.
Import JsString Locator Diff Shape StringFacts.

(** ** Decimal numerals *)

Lemma allDigits_uint (u : Decimal.uint) :
  allDigits (NilEmpty.string_of_uint u) = true.
Proof. induction u; simpl; auto. Qed.

Lemma dec_digits (n : N) : allDigits (dec n) = true.
Proof.
  unfold dec, NilZero.string_of_uint.
  destruct (N.to_uint n) eqn:E; try reflexivity;
    rewrite <- E; apply allDigits_uint.
Qed.

Lemma dec_nonempty (n : N) : dec n <> "".
Proof.
  unfold dec, NilZero.string_of_uint.
  destruct (N.to_uint n); simpl; discriminate.
Qed.

Lemma to_uint_nonnil (n : N) : N.to_uint n <> Decimal.Nil.
Proof.
  intros E. pose proof (DecimalN.Unsigned.to_of (N.to_uint n)) as H.
  rewrite DecimalN.Unsigned.of_to, E in H.
  symmetry in H. revert H. apply unorm_nonnil.
Qed.

Lemma parseInt_dec (n : N) : parseInt (dec n) = Z.of_N n.
Proof.
  unfold parseInt, dec.
  rewrite NilZero.usu by apply to_uint_nonnil.
  now rewrite DecimalN.Unsigned.of_to.
Qed.

Lemma spanDigits_app (ds rest : string) :
  allDigits ds = true -> startsWithDigit rest = false ->
  spanDigits (ds ++ rest) = (ds, rest).
Proof.
  intros Hds Hrest. induction ds as [|c ds IH]; cbn [append spanDigits].
  - destruct rest as [|r rest]; [reflexivity|].
    cbn [startsWithDigit] in Hrest. cbn [spanDigits]. now rewrite Hrest.
  - cbn [allDigits] in Hds. apply andb_prop in Hds as [Hc Hds].
    rewrite Hc, (IH Hds). reflexivity.
Qed.

Lemma digits1_dec (n : N) (rest : string) :
  startsWithDigit rest = false ->
  digits1 (dec n ++ rest) = Some (dec n, rest).
Proof.
  intros Hrest. unfold digits1.
  rewrite (spanDigits_app _ _ (dec_digits n) Hrest).
  destruct (dec n) eqn:E; [now apply dec_nonempty in E | reflexivity].
Qed.

(** ** Header lines *)

Lemma range_parse (start len : N) (rest : string) :
  startsWithDigit rest = false ->
  (forall s, rest <> String "," s) ->
  exists tail,
    digits1 (range start len ++ rest) = Some (dec start, tail) /\
    optCommaDigits tail = rest.
Proof.
  intros Hd Hc. unfold range. destruct (len =? 1)%N.
  - exists rest. split; [now apply digits1_dec|].
    destruct rest as [|r rest]; [reflexivity|].
    unfold optCommaDigits.
    destruct (Ascii.eqb_spec r ",") as [->|Hne]; [now destruct (Hc rest)|].
    destruct r as [[] [] [] [] [] [] [] []]; try reflexivity. now destruct Hne.
  - exists ("," ++ dec len ++ rest). split.
    + rewrite app_assoc. now apply digits1_dec.
    + simpl. now rewrite (digits1_dec _ _ Hd).
Qed.

Lemma hunkHeaderAt_header (h : Hunk) :
  hunkHeaderAt (headerLine h) = Some (dec (newStart h)).
Proof.
  unfold hunkHeaderAt, headerLine.
  rewrite dropPrefix_app.
  destruct (range_parse (oldStart h) (oldLen h)
              (" +" ++ range (newStart h) (newLen h) ++ " @@" ++ heading h)
              eq_refl ltac:(discriminate))
    as (t1 & -> & ->).
  rewrite dropPrefix_app.
  destruct (range_parse (newStart h) (newLen h) (" @@" ++ heading h)
              eq_refl ltac:(discriminate))
    as (t2 & -> & ->).
  now rewrite dropPrefix_app.
Qed.

Lemma hunkHeaderMatch_at (s g : string) :
  hunkHeaderAt s = Some g -> hunkHeaderMatch s = Some g.
Proof. intros H. destruct s; cbn [hunkHeaderMatch]; now rewrite H. Qed.

Lemma hunkHeaderMatch_header (h : Hunk) :
  hunkHeaderMatch (headerLine h) = Some (dec (newStart h)).
Proof. apply hunkHeaderMatch_at, hunkHeaderAt_header. Qed.

(** A header line resets the counter to [newStart - 1]. *)
Lemma scanLine_header (h : Hunk) (c L : Z) :
  scanLine (headerLine h) c L = Continue (Z.of_N (newStart h) - 1).
Proof.
  unfold scanLine.
  replace (startsWith "@@" (headerLine h)) with true by reflexivity.
  now rewrite hunkHeaderMatch_header, parseInt_dec.
Qed.

(** ** Content lines *)

Lemma scanLine_content (l : Tag * string) (c L : Z) :
  plainLine l = true -> c < L ->
  scanLine (contentLine l) c L =
    if inNewFile (fst l)
    then (if c + 1 =? L then Found else Continue (c + 1))
    else Continue c.
Proof.
  destruct l as [[] s]; unfold plainLine, contentLine; simpl fst; simpl snd;
    intros Hp Hc.
  - reflexivity.
  - apply negb_true_iff in Hp. unfold scanLine.
    change (startsWith "@@" (marker Added ++ s)) with false.
    change (startsWith "---" (marker Added ++ s)) with false.
    change (startsWith "+++" (marker Added ++ s)) with (startsWith "++" s).
    rewrite Hp. reflexivity.
  - unfold scanLine.
    change (startsWith "@@" (marker Removed ++ s)) with false.
    change (startsWith "+++" (marker Removed ++ s)) with false.
    change (startsWith "-" (marker Removed ++ s)) with true.
    destruct (startsWith "---" (marker Removed ++ s)); simpl; [reflexivity|].
    destruct (Z.eqb_spec c L); [lia | reflexivity].
  - discriminate Hp.
Qed.

Lemma scanLine_marker (prefix name : string) (c L : Z) :
  prefix = "--- " \/ prefix = "+++ " ->
  scanLine (prefix ++ name) c L = Continue c.
Proof. intros [-> | ->]; reflexivity. Qed.

(** ** The numbering of a body *)

Lemma countNew_nil : countNew [] = 0%N.
Proof. reflexivity. Qed.

Lemma countNew_cons (l : Tag * string) (b : list (Tag * string)) :
  Z.of_N (countNew (l :: b)) =
  (if inNewFile (fst l) then 1 else 0) + Z.of_N (countNew b).
Proof.
  unfold countNew; cbn [List.filter].
  destruct (inNewFile (fst l)); cbn [length]; lia.
Qed.

Lemma annotateBody_range (n L : Z) (b : list (Tag * string)) :
  In (Some L) (map snd (annotateBody n b)) <->
  n <= L < n + Z.of_N (countNew b).
Proof.
  revert n. induction b as [|l b IH]; intros n.
  - rewrite countNew_nil. cbn. lia.
  - rewrite countNew_cons. cbn [annotateBody].
    destruct (inNewFile (fst l)); cbn [map In snd]; rewrite IH.
    + split.
      * intros [[= ->] | H]; lia.
      * intros H. destruct (Z.eq_dec n L) as [->|]; [now left | right; lia].
    + split; [intros [|]; [discriminate | lia] | intros; right; lia].
Qed.

Lemma nth_error_shown (l : list (string * option Z)) (k : nat) (s : string) (L : Z) :
  nth_error l k = Some (s, Some L) -> In (Some L) (map snd l).
Proof.
  intros H. apply nth_error_In in H.
  change (Some L) with (snd (s, Some L)). now apply in_map.
Qed.

Lemma annotateBody_length (n : Z) (b : list (Tag * string)) :
  length (annotateBody n b) = length b.
Proof.
  revert n; induction b as [|l b IH]; intros n; simpl; [reflexivity|].
  destruct (inNewFile (fst l)); simpl; now rewrite IH.
Qed.

(** Scanning a hunk body whose lines start at [n], with the counter at
    [n - 1] below the target: the target is met on the line that shows
    it, or the body is passed with the counter advanced by its
    new-file lines. *)
Lemma scan_body (b : list (Tag * string)) :
  forall (n : Z) (i : nat) (rest : list string) (L : Z),
    forallb plainLine b = true -> n <= L ->
    (L < n + Z.of_N (countNew b) ->
     exists k s,
       scan (map fst (annotateBody n b) ++ rest)%list i (n - 1) L
         = Some (i + k + 1)%nat /\
       nth_error (annotateBody n b) k = Some (s, Some L)) /\
    (n + Z.of_N (countNew b) <= L ->
     scan (map fst (annotateBody n b) ++ rest)%list i (n - 1) L
       = scan rest (i + length b)%nat (n + Z.of_N (countNew b) - 1) L).
Proof.
  induction b as [|l b IH]; intros n i rest L Hp Hn.
  - rewrite countNew_nil. cbn. split; [lia|].
    intros _. f_equal; lia.
  - simpl in Hp. apply andb_prop in Hp as [Hl Hb].
    rewrite countNew_cons. cbn [annotateBody].
    destruct (inNewFile (fst l)) eqn:Hnew; simpl map; simpl app; simpl scan;
      rewrite (scanLine_content l (n - 1) L Hl) by lia; rewrite Hnew.
    + replace (n - 1 + 1) with n by lia.
      destruct (Z.eqb_spec n L) as [->|Hne].
      * split; [|lia]. intros _. exists 0%nat, (contentLine l).
        split; [f_equal; lia | reflexivity].
      * destruct (IH (n + 1) (S i) rest L Hb ltac:(lia)) as [IH1 IH2].
        replace (n + 1 - 1) with n in * by lia.
        split.
        -- intros H. destruct IH1 as (k & s & Hs & Hk); [lia|].
           exists (S k), s. split; [rewrite Hs; f_equal; lia | exact Hk].
        -- intros H. rewrite IH2 by lia. f_equal; simpl; lia.
    + destruct (IH n (S i) rest L Hb Hn) as [IH1 IH2].
      split.
      * intros H. destruct IH1 as (k & s & Hs & Hk); [lia|].
        exists (S k), s. split; [rewrite Hs; f_equal; lia | exact Hk].
      * intros H. rewrite IH2 by lia. f_equal; simpl; lia.
Qed.


(** ** Hunks in ascending order *)

Lemma ascending_lower (hs : list Hunk) :
  forall (from : N) (h : Hunk),
    ascending from hs = true -> In h hs -> (from <= newStart h)%N.
Proof.
  induction hs as [|h0 hs IH]; intros from h Hasc Hin; [destruct Hin|].
  cbn [ascending] in Hasc. apply andb_prop in Hasc as [Hle Hasc].
  apply N.leb_le in Hle. destruct Hin as [<-|Hin]; [exact Hle|].
  specialize (IH _ _ Hasc Hin). lia.
Qed.

Lemma shown_in_hunks (L : Z) (hs : list Hunk) :
  In (Some L) (map snd (flat_map annotateHunk hs)) ->
  exists h, In h hs /\
            In (Some L) (map snd (annotateBody (Z.of_N (newStart h)) (body h))).
Proof.
  induction hs as [|h hs IH]; cbn [flat_map]; [intros []|].
  rewrite map_app, in_app_iff. intros [[H|H] | H].
  - discriminate.
  - exists h. split; [now left | exact H].
  - destruct (IH H) as (h' & Hin & Hh'). exists h'. split; [now right | exact Hh'].
Qed.

Lemma scan_hunks (hs : list Hunk) :
  forall (from : N) (i : nat) (c : Z) (rest : list string) (L : Z),
    forallb hunkOk hs = true ->
    ascending from hs = true ->
    forallb (fun h => forallb plainLine (body h)) hs = true ->
    In (Some L) (map snd (flat_map annotateHunk hs)) ->
    exists k s,
      scan (map fst (flat_map annotateHunk hs) ++ rest)%list i c L
        = Some (i + k + 1)%nat /\
      nth_error (flat_map annotateHunk hs) k = Some (s, Some L).
Proof.
  induction hs as [|h hs IH]; intros from i c rest L Hok Hasc Hplain Hin;
    [destruct Hin|].
  cbn [forallb] in Hok, Hplain. cbn [ascending] in Hasc.
  apply andb_prop in Hok as [Hh Hok], Hplain as [Hph Hplain], Hasc as [_ Hasc].
  unfold hunkOk in Hh.
  apply andb_prop in Hh as [Hh _]. apply andb_prop in Hh as [_ Hlen].
  apply N.eqb_eq in Hlen.
  set (n := Z.of_N (newStart h)).
  assert (Hn : n <= L /\
               (n + Z.of_N (countNew (body h)) <= L ->
                In (Some L) (map snd (flat_map annotateHunk hs)))).
  { cbn [flat_map] in Hin. rewrite map_app, in_app_iff in Hin.
    destruct Hin as [[Hin|Hin] | Hin]; [discriminate | |].
    - apply annotateBody_range in Hin. fold n in Hin. split; lia.
    - split; [|intros _; exact Hin].
      destruct (shown_in_hunks _ _ Hin) as (h' & Hh' & HL).
      apply annotateBody_range in HL.
      pose proof (ascending_lower _ _ _ Hasc Hh'). subst n. lia. }
  destruct Hn as [Hn Htail].
  cbn [flat_map]. unfold annotateHunk at 1 3. cbn [map app fst scan].
  rewrite scanLine_header, map_app, <- List.app_assoc. fold n.
  destruct (scan_body (body h) n (S i) (map fst (flat_map annotateHunk hs) ++ rest)%list
              L Hph Hn) as [Hfound Hpass].
  destruct (Z_lt_dec L (n + Z.of_N (countNew (body h)))) as [Hlt|Hge].
  - destruct (Hfound Hlt) as (k & s & Hs & Hk).
    exists (S k), s. split; [rewrite Hs; f_equal; lia|].
    cbn [nth_error]. rewrite nth_error_app1; [exact Hk|].
    apply nth_error_Some. congruence.
  - rewrite Hpass by lia.
    destruct (IH (newStart h + newLen h)%N (S i + length (body h))%nat
                (n + Z.of_N (countNew (body h)) - 1) rest L Hok Hasc Hplain
                (Htail ltac:(lia)))
      as (k & s & Hs & Hk).
    exists (S (length (body h) + k)), s. split; [rewrite Hs; f_equal; lia|].
    cbn [nth_error]. rewrite nth_error_app2; rewrite annotateBody_length; [|lia].
    replace (length (body h) + k - length (body h))%nat with k by lia.
    exact Hk.
Qed.

(** ** Rendered lines hold no line break *)

Lemma digits_lack_nl (s : string) : allDigits s = true -> lacks "010" s = true.
Proof.
  induction s as [|c s IH]; cbn [allDigits lacks]; [reflexivity|].
  intros [Hc Hs]%andb_prop. rewrite (IH Hs), andb_true_r.
  destruct (Ascii.eqb_spec c "010") as [->|]; [discriminate Hc | reflexivity].
Qed.

Lemma range_lacks_nl (a b : N) : lacks "010" (range a b) = true.
Proof.
  unfold range. destruct (b =? 1)%N.
  - apply digits_lack_nl, dec_digits.
  - rewrite !lacks_app, (digits_lack_nl (dec a)), (digits_lack_nl (dec b))
      by apply dec_digits.
    reflexivity.
Qed.

Lemma headerLine_ok (h : Hunk) :
  lineOk (heading h) = true -> lineOk (headerLine h) = true.
Proof.
  unfold lineOk, headerLine. intros H.
  rewrite !lacks_app, !range_lacks_nl, H. reflexivity.
Qed.

Lemma body_lines_ok (b : list (Tag * string)) (n : Z) :
  forallb (fun l => lineOk (snd l)) b = true ->
  forallb lineOk (map fst (annotateBody n b)) = true.
Proof.
  revert n. induction b as [|l b IH]; intros n; cbn [forallb annotateBody];
    [reflexivity|].
  intros [Hl Hb]%andb_prop.
  assert (Hc : lineOk (contentLine l) = true).
  { unfold lineOk, contentLine. rewrite lacks_app.
    unfold lineOk in Hl. rewrite Hl. now destruct (fst l). }
  destruct (inNewFile (fst l)); cbn [map fst forallb]; now rewrite Hc, IH.
Qed.

Lemma hunks_lines_ok (hs : list Hunk) :
  forallb hunkOk hs = true ->
  forallb lineOk (map fst (flat_map annotateHunk hs)) = true.
Proof.
  induction hs as [|h hs IH]; cbn [forallb flat_map]; [reflexivity|].
  intros [Hh Hhs]%andb_prop. unfold hunkOk in Hh.
  apply andb_prop in Hh as [Hh _]. apply andb_prop in Hh as [Hh _].
  apply andb_prop in Hh as [Hhead Hbody].
  rewrite map_app, forallb_app, (IH Hhs), andb_true_r.
  unfold annotateHunk. cbn [map fst forallb].
  now rewrite (headerLine_ok _ Hhead), body_lines_ok.
Qed.

Lemma diffLines_ok (d : Diff) :
  valid d = true -> forallb lineOk (diffLines d) = true /\ diffLines d <> [].
Proof.
  unfold valid. intros H.
  apply andb_prop in H as [H Hne]. apply andb_prop in H as [H _].
  apply andb_prop in H as [Hm Hh].
  split.
  - unfold diffLines, annotate.
    rewrite map_app, forallb_app, (hunks_lines_ok _ Hh), andb_true_r.
    destruct (fileMarkers d) as [[a b]|]; [|reflexivity].
    cbn in Hm |- *. apply andb_prop in Hm as [Ha Hb].
    unfold lineOk in *. now rewrite Ha, Hb.
  - unfold diffLines. destruct (annotate d); [discriminate Hne | discriminate].
Qed.

(** On the text of a valid diff the loop runs over the rendered lines. *)
Lemma findPosition_render (d : Diff) (L : Z) :
  valid d = true -> findPosition (render d) L = scan (diffLines d) 0 0 L.
Proof.
  intros Hv. destruct (diffLines_ok d Hv) as [Hok Hne].
  unfold findPosition, render. now rewrite split_join.
Qed.

Lemma scan_markers (m : option (string * string)) (rest : list string) (c L : Z) :
  scan (map fst (annotateMarkers m) ++ rest)%list 0 c L
  = scan rest (length (annotateMarkers m)) c L.
Proof.
  destruct m as [[a b]|]; [|reflexivity].
  cbn [annotateMarkers map fst app scan length].
  now rewrite !scanLine_marker by auto.
Qed.

(** The locator on a valid diff of plain lines: a line
    that the diff shows is found, at a position that shows it. *)
Lemma findPosition_shown (d : Diff) (L : Z) :
  valid d = true -> plainLines d = true -> shows d L ->
  exists k s,
    findPosition (render d) L = Some (length (annotateMarkers (fileMarkers d)) + k + 1)%nat /\
    nth_error (flat_map annotateHunk (hunks d)) k = Some (s, Some L).
Proof.
  intros Hv Hp Hs. rewrite (findPosition_render d L Hv).
  pose proof Hv as Hv'. unfold valid in Hv'.
  apply andb_prop in Hv' as [Hv' _]. apply andb_prop in Hv' as [Hv' Hasc].
  apply andb_prop in Hv' as [_ Hok].
  unfold diffLines, annotate. rewrite map_app, scan_markers.
  rewrite <- (List.app_nil_r (map fst (flat_map annotateHunk (hunks d)))).
  apply (scan_hunks (hunks d) 0%N); try assumption.
  unfold shows, annotate in Hs. rewrite map_app, in_app_iff in Hs.
  destruct Hs as [Hs|Hs]; [|exact Hs].
  destruct (fileMarkers d) as [[a b]|]; cbn in Hs; intuition discriminate.
Qed.

Lemma newLineAt_hunks (d : Diff) (k : nat) :
  newLineAt d (length (annotateMarkers (fileMarkers d)) + k + 1)
  = match nth_error (flat_map annotateHunk (hunks d)) k with
    | Some (_, n) => n
    | None => None
    end.
Proof.
  unfold newLineAt, annotate.
  replace (length (annotateMarkers (fileMarkers d)) + k + 1)%nat
    with (S (length (annotateMarkers (fileMarkers d)) + k)) by lia.
  rewrite nth_error_app2 by lia.
  now replace (length (annotateMarkers (fileMarkers d)) + k
               - length (annotateMarkers (fileMarkers d)))%nat with k by lia.
Qed.

End LocatorFacts.

(* ================================================================== *)
(** * The shape of a text that [JSON.parse] reads as an object *)
(* ================================================================== *)

Module JsonFacts.
Import JsString Json Shape.

(** ** The lexer *)








(** ** Where the first and the last token come from *)















(** ** The grammar *)






End JsonFacts.

(* ================================================================== *)
(** * The solution parser *)
(* ================================================================== *)

Module SolutionFacts.
Import JsString Json IssueAgent Spec Shape StringFacts JsonFacts.

(** ** Searching *)

Lemma findSub_Some (pat s before rest : string) :
  findSub pat s = Some (before, rest) -> s = before ++ pat ++ rest.
Proof.
  revert before. induction s as [|c s IH]; intros before.
  - cbn [findSub]. destruct (dropPrefix pat "") eqn:E; [|discriminate].
    intros [= <- <-]. exact (dropPrefix_Some _ _ _ E).
  - cbn [findSub]. destruct (dropPrefix pat (String c s)) eqn:E.
    + intros [= <- <-]. exact (dropPrefix_Some _ _ _ E).
    + destruct (findSub pat s) as [[b r]|]; [|discriminate].
      intros [= <- <-]. cbn. now rewrite (IH b eq_refl).
Qed.





(** ** The fenced block *)




(** ** The brace pattern *)




(** ** White space *)





(** ** [trim] *)

Lemma trimEnd_spaces (s : string) : allTrimSpace s = true -> trimEnd s = "".
Proof.
  induction s as [|c s IH]; [reflexivity|]. cbn.
  intros [Hc Hs]%andb_prop. now rewrite (IH Hs), Hc.
Qed.







(** ** Stripping the fence markers *)






(** ** What is parsed *)




End SolutionFacts.

(* ================================================================== *)
(** * Change application *)
(* ================================================================== *)

Module ChangeFacts.
Import JsString Json IssueAgent Spec Shape StringFacts SolutionFacts.

(** ** [findSub] finds the first occurrence *)

Lemma findSub_None (pat s : string) :
  findSub pat s = None -> ~ occurs pat s.
Proof.
  intros H (b & a & E). unfold occursAt in E. revert b E.
  induction s as [|c s IH]; intros b E; cbn [findSub] in H.
  - destruct (dropPrefix pat "") eqn:D; [discriminate|].
    destruct b; [|discriminate E]. cbn in E.
    now apply (dropPrefix_None _ _ _ D) in E.
  - destruct (dropPrefix pat (String c s)) eqn:D; [discriminate|].
    destruct (findSub pat s) as [[b' r]|]; [discriminate|].
    destruct b as [|x b]; cbn in E.
    + now apply (dropPrefix_None _ _ _ D) in E.
    + inversion E; subst. now apply (IH eq_refl b).
Qed.

Lemma findSub_leftmost (pat s before rest : string) :
  findSub pat s = Some (before, rest) ->
  forall b a, occursAt pat s b a -> (String.length before <= String.length b)%nat.
Proof.
  unfold occursAt. revert before.
  induction s as [|c s IH]; intros before H b a E; cbn [findSub] in H.
  - destruct (dropPrefix pat ""); [|discriminate].
    inversion H; subst. cbn. lia.
  - destruct (dropPrefix pat (String c s)) eqn:D.
    + inversion H; subst. cbn. lia.
    + destruct (findSub pat s) as [[b' r]|] eqn:F; [|discriminate].
      inversion H; subst.
      destruct b as [|x b]; cbn in E.
      * now apply (dropPrefix_None _ _ _ D) in E.
      * inversion E; subst. specialize (IH _ eq_refl _ _ eq_refl). cbn. lia.
Qed.

Lemma app_same_length (a b x y : string) :
  a ++ x = b ++ y -> String.length a = String.length b -> a = b /\ x = y.
Proof.
  revert b. induction a as [|c a IH]; intros [|d b] E L; try discriminate L.
  - auto.
  - cbn in E, L. inversion E; subst.
    destruct (IH b H1 ltac:(lia)) as [-> ->]. auto.
Qed.

Lemma findSub_first (pat s before after : string) :
  firstOccurrence pat s before after -> findSub pat s = Some (before, after).
Proof.
  intros [Hocc Hmin].
  destruct (findSub pat s) as [[b r]|] eqn:F.
  - pose proof (findSub_leftmost _ _ _ _ F _ _ Hocc) as H1.
    pose proof (findSub_Some _ _ _ _ F) as E.
    pose proof (Hmin _ _ E) as H2.
    unfold occursAt in Hocc. rewrite Hocc in E.
    destruct (app_same_length _ _ _ _ E ltac:(lia)) as [-> E'].
    destruct (app_same_length _ _ _ _ E' eq_refl) as [_ ->]. reflexivity.
  - exfalso. apply (findSub_None _ _ F). now exists before, after.
Qed.

(** ** A replacement text without patterns stands for itself *)

Lemma getSubstitution_plain (matched before after template : string) :
  plainTemplate template = true ->
  getSubstitution matched before after template = template.
Proof.
  induction template as [|c t IH]; [reflexivity|].
  cbn [plainTemplate]. intros [Hc Ht]%andb_prop.
  cbn [getSubstitution]. rewrite (IH Ht).
  destruct (Ascii.eqb c "$"); [|reflexivity].
  destruct t as [|d t]; [reflexivity|].
  cbn [andb] in Hc. apply negb_true_iff in Hc.
  unfold isPatternChar in Hc.
  apply orb_false_elim in Hc as [Hc H4].
  apply orb_false_elim in Hc as [Hc H3].
  apply orb_false_elim in Hc as [H1 H2].
  now rewrite H1, H2, H3, H4.
Qed.

Lemma replace_first (content o r before after : string) :
  plainTemplate r = true -> firstOccurrence o content before after ->
  replace content o r = before ++ r ++ after.
Proof.
  intros Hr Hfirst. unfold replace.
  now rewrite (findSub_first _ _ _ _ Hfirst), getSubstitution_plain.
Qed.

Lemma replace_absent (content o r : string) :
  ~ occurs o content -> replace content o r = content.
Proof.
  intros H. unfold replace.
  destruct (findSub o content) as [[b a]|] eqn:F; [|reflexivity].
  exfalso. apply H. exists b, a. exact (findSub_Some _ _ _ _ F).
Qed.

Lemma occurs_empty (content : string) : occurs "" content.
Proof. now exists "", content. Qed.

(** ** [applyChange] *)

Lemma applyChange_first (content o r before after : string) (change : ChangeSpec) :
  original change = Some o -> replacement change = Some r ->
  o <> "" -> plainTemplate r = true ->
  firstOccurrence o content before after ->
  applyChange content change = before ++ r ++ after.
Proof.
  intros Ho Hr Hne Hp Hfirst. unfold applyChange. rewrite Ho, Hr. cbn.
  destruct o; [contradiction|]. now apply replace_first.
Qed.

Lemma applyChange_absent (content o : string) (change : ChangeSpec) :
  original change = Some o -> ~ occurs o content ->
  applyChange content change = content.
Proof.
  intros Ho Hocc. unfold applyChange. rewrite Ho.
  destruct o; [destruct Hocc; apply occurs_empty|].
  cbn. now apply replace_absent.
Qed.

Lemma applyChange_whole (content : string) (change : ChangeSpec) :
  original change = None \/ original change = Some "" ->
  applyChange content change = default "" (replacement change).
Proof. unfold applyChange. now intros [-> | ->]. Qed.

(** ** [applyChanges] *)

Lemma applyChanges_skip_rest (change : ChangeSpec) (rest : list ChangeSpec)
      (fs : gmap string Node) :
  truthyOpt (file change) = false \/ truthyOpt (replacement change) = false ->
  applyChanges (change :: rest) fs
  = let '(r, fs', log) := applyChanges rest fs in
    (r, fs', LogSkippingInvalid (file change) :: log).
Proof.
  intros H. cbn [applyChanges].
  replace (negb (truthyOpt (file change)) || negb (truthyOpt (replacement change)))
    with true; [reflexivity|].
  destruct H as [-> | ->]; cbn; [reflexivity | now rewrite orb_true_r].
Qed.

Lemma applyChanges_update (change : ChangeSpec) (fs : gmap string Node)
      (p r content : string) :
  file change = Some p -> p <> "" ->
  replacement change = Some r -> r <> "" ->
  fs !! p = Some (File content) ->
  applyChanges [change] fs
  = (Ok tt, <[p := File (applyChange content change)]> fs, [LogUpdated p]).
Proof.
  intros Hf Hp Hr Hr' Hfs. cbn [applyChanges]. rewrite Hf, Hr. cbn [truthyOpt default].
  destruct p; [contradiction|]. destruct r; [contradiction|]. cbn [truthy negb orb].
  unfold existsSync, readFileSync, writeFileSync, id. rewrite Hfs.
  rewrite bool_decide_eq_true_2 by eauto. reflexivity.
Qed.

End ChangeFacts.

(* ================================================================== *)
(** * The review-list parser *)
(* ================================================================== *)

Module ReviewFacts.
Import JsString Json Review Spec.

(** On every element but [null] the callback is the check the
    specification words. *)
Lemma validReview_wellFormed (v : JSON) :
  v <> JNull -> validReview v = Ok (wellFormedReview v).
Proof.
  intros Hv. destruct v as [| b | n | s | es | ms]; try reflexivity;
    [contradiction|].
  unfold validReview, wellFormedReview, getProp.
  set (line := lookup (units "line") ms).
  set (comment := lookup (units "comment") ms).
  clearbody line comment.
  destruct line as [[| | ? | | |]|]; destruct comment as [[| | | ? | |]|];
    reflexivity.
Qed.

Lemma validReview_null :
  validReview JNull
  = Throw (TypeError "Cannot read properties of null (reading 'line')").
Proof. reflexivity. Qed.

Lemma filterReviews_no_null (elements : list JSON) :
  Forall (fun v => v <> JNull) elements ->
  filterReviews elements = Ok (List.filter wellFormedReview elements).
Proof.
  induction 1 as [|v vs Hv _ IH]; [reflexivity|].
  cbn [filterReviews List.filter].
  rewrite (validReview_wellFormed _ Hv), IH. cbn.
  now destruct (wellFormedReview v).
Qed.

(** A [null] among the elements makes the filter throw. *)
Lemma filterReviews_null (elements : list JSON) :
  In JNull elements -> exists e, filterReviews elements = Throw e.
Proof.
  induction elements as [|v vs IH]; intros Hin; [destruct Hin|].
  cbn [filterReviews].
  destruct (validReview v) as [keep|e] eqn:E; [|now exists e].
  destruct Hin as [->|Hin]; [discriminate E|].
  destruct (IH Hin) as [e ->]. now exists e.
Qed.

Lemma reviewTextOf_parse (text : string) :
  parseReviewText (reviewTextOf (Some text))
  = match JSON_parse (trim text) with
    | Some v => Ok v
    | None => if truthy (trim text) then Throw SyntaxError else Ok JNull
    end.
Proof.
  unfold reviewTextOf, parseReviewText.
  destruct (trim text) eqn:E; cbn; [reflexivity|].
  now destruct (JSON_parse (String a s)).
Qed.

(** When the text is an array without [null], the result is the
    elements that pass the check. *)
Lemma getReview_array (text filename : string) (elements : list JSON) :
  JSON_parse (trim text) = Some (JArray elements) ->
  Forall (fun v => v <> JNull) elements ->
  getReview (ApiText (Some text)) filename
  = (Ok (Some (List.filter wellFormedReview elements)), [InfoRequesting filename]).
Proof.
  intros Hparse Hall. unfold getReview, validate.
  rewrite reviewTextOf_parse, Hparse. cbn.
  now rewrite (filterReviews_no_null _ Hall).
Qed.


End ReviewFacts.

(* ================================================================== *)
(** * More about the locator *)
(* ================================================================== *)

Module LocatorMore.
Import JsString Locator Diff Shape StringFacts LocatorFacts.

(** A line at which the loop stops is no file marker and no hunk
    header that the pattern matches. *)
Lemma scanLine_Found (line : string) (c L : Z) :
  scanLine line c L = Found ->
  startsWith "---" line = false /\ startsWith "+++" line = false /\
  (startsWith "@@" line = true -> hunkHeaderMatch line = None) /\
  (if startsWith "-" line then c else c + 1) = L.
Proof.
  unfold scanLine. intros H.
  assert (Hh : startsWith "@@" line = true -> hunkHeaderMatch line = None).
  { intros E. rewrite E in H. now destruct (hunkHeaderMatch line). }
  destruct (if startsWith "@@" line then hunkHeaderMatch line else None);
    [discriminate|].
  destruct (startsWith "---" line); [discriminate|].
  destruct (startsWith "+++" line); [discriminate|].
  cbn [negb andb] in H.
  destruct (startsWith "-" line); cbn [negb] in H;
    match type of H with context [?a =? ?b] =>
      destruct (Z.eqb_spec a b) end; try discriminate; auto.
Qed.

Lemma scan_Some (ls : list string) :
  forall (i : nat) (c L : Z) (p : nat),
    scan ls i c L = Some p ->
    (i < p <= i + length ls)%nat /\
    exists line c',
      nth_error ls (p - i - 1) = Some line /\ scanLine line c' L = Found.
Proof.
  induction ls as [|l ls IH]; intros i c L p H; [discriminate|].
  cbn [scan] in H. destruct (scanLine l c L) as [c'|] eqn:E.
  - destruct (IH _ _ _ _ H) as (Hp & line & c'' & Hn & Hf).
    split; [cbn [length]; lia|]. exists line, c''. split; [|exact Hf].
    replace (p - i - 1)%nat with (S (p - S i - 1)) by lia. exact Hn.
  - inversion H; subst p. split; [cbn [length]; lia|].
    exists l, c. split; [|exact E].
    now replace (i + 1 - i - 1)%nat with 0%nat by lia.
Qed.

(** ** Targets that are not found *)

Lemma scanLine_content_other (l : Tag * string) (c L : Z) :
  plainLine l = true -> c <> L ->
  scanLine (contentLine l) c L =
    if inNewFile (fst l)
    then (if c + 1 =? L then Found else Continue (c + 1))
    else Continue c.
Proof.
  destruct l as [[] s]; unfold plainLine, contentLine; simpl fst; simpl snd;
    intros Hp Hc.
  - reflexivity.
  - apply negb_true_iff in Hp. unfold scanLine.
    change (startsWith "@@" (marker Added ++ s)) with false.
    change (startsWith "---" (marker Added ++ s)) with false.
    change (startsWith "+++" (marker Added ++ s)) with (startsWith "++" s).
    rewrite Hp. reflexivity.
  - unfold scanLine.
    change (startsWith "@@" (marker Removed ++ s)) with false.
    change (startsWith "+++" (marker Removed ++ s)) with false.
    change (startsWith "-" (marker Removed ++ s)) with true.
    destruct (startsWith "---" (marker Removed ++ s)); simpl; [reflexivity|].
    destruct (Z.eqb_spec c L); [contradiction | reflexivity].
  - discriminate Hp.
Qed.

(** A body none of whose lines the target names is passed. *)
Lemma scan_body_pass (b : list (Tag * string)) :
  forall (n : Z) (i : nat) (rest : list string) (L : Z),
    forallb plainLine b = true ->
    n - 1 <> L -> ~ (n <= L < n + Z.of_N (countNew b)) ->
    scan (map fst (annotateBody n b) ++ rest)%list i (n - 1) L
    = scan rest (i + length b)%nat (n + Z.of_N (countNew b) - 1) L.
Proof.
  induction b as [|l b IH]; intros n i rest L Hp Hc Hout.
  - rewrite countNew_nil. cbn. f_equal; lia.
  - cbn [forallb] in Hp. apply andb_prop in Hp as [Hl Hb].
    rewrite countNew_cons in Hout |- *. cbn [annotateBody].
    destruct (inNewFile (fst l)) eqn:Hnew; cbn [map app fst scan];
      rewrite (scanLine_content_other l (n - 1) L Hl Hc), Hnew.
    + replace (n - 1 + 1) with n by lia.
      destruct (Z.eqb_spec n L) as [->|Hne]; [exfalso; apply Hout; lia|].
      replace n with (n + 1 - 1) at 2 by lia.
      rewrite IH by (assumption || lia). f_equal; cbn [length]; lia.
    + rewrite IH by (assumption || lia). f_equal; cbn [length]; lia.
Qed.

Lemma scan_hunks_pass (hs : list Hunk) :
  forall (i : nat) (c L : Z),
    forallb (fun h => forallb plainLine (body h)) hs = true ->
    ~ In (Some L) (map snd (flat_map annotateHunk hs)) ->
    (forall h, In h hs -> Z.of_N (newStart h) - 1 <> L) ->
    scan (map fst (flat_map annotateHunk hs)) i c L = None.
Proof.
  induction hs as [|h hs IH]; intros i c L Hp Hs Hstart; [reflexivity|].
  cbn [forallb] in Hp. apply andb_prop in Hp as [Hph Hp].
  cbn [flat_map] in Hs |- *. rewrite map_app, in_app_iff in Hs.
  unfold annotateHunk at 1. cbn [map app fst scan].
  rewrite scanLine_header, map_app.
  rewrite scan_body_pass.
  - apply IH; [exact Hp | tauto | intros h' Hh'; apply Hstart; now right].
  - exact Hph.
  - apply Hstart. now left.
  - intros Hin. apply Hs. left. cbn [annotateHunk map snd In]. right.
    now apply annotateBody_range.
Qed.

End LocatorMore.

(* ================================================================== *)
(** * More about the review-list parser *)
(* ================================================================== *)

Module ReviewMore.
Import JsString Json Review Spec Shape PrShape SolutionFacts ReviewFacts.

(** The filter gives a list only when no element is [null]. *)
Lemma filterReviews_Ok (elements : list JSON) :
  forall kept,
    filterReviews elements = Ok kept ->
    Forall (fun v => v <> JNull) elements /\
    kept = List.filter wellFormedReview elements.
Proof.
  induction elements as [|v vs IH]; intros kept H.
  - inversion H. split; [constructor | reflexivity].
  - cbn [filterReviews] in H.
    assert (Hv : v <> JNull) by (intros ->; discriminate H).
    rewrite (validReview_wellFormed _ Hv) in H. cbn in H.
    destruct (filterReviews vs) as [kept'|e]; [|discriminate H].
    destruct (IH _ eq_refl) as [Hall ->]. cbn in H.
    split; [now constructor|].
    cbn [List.filter]. destruct (wellFormedReview v); now inversion H.
Qed.

Lemma wellFormed_lineAndComment (review : JSON) :
  wellFormedReview review = true -> lineAndComment review.
Proof.
  destruct review as [| | | | |ms]; try discriminate.
  unfold wellFormedReview, lineAndComment.
  destruct (lookup (units "line") ms) as [[| |n| | |]|] eqn:El;
    try discriminate.
  destruct (lookup (units "comment") ms) as [[| | |s| |]|] eqn:Ec;
    try discriminate.
  intros H. apply andb_prop in H as [_ H].
  exists ms, n, s. repeat split; auto.
  intros ->. discriminate H.
Qed.

Lemma filter_all_true {A} (f : A -> bool) (l : list A) :
  Forall (fun x => f x = true) (List.filter f l).
Proof. apply List.Forall_forall. intros x Hx. now apply filter_In in Hx. Qed.

(** A text of white space only is no review text. *)
Lemma reviewTextOf_blank (text : string) :
  allTrimSpace text = true -> reviewTextOf (Some text) = None.
Proof.
  intros H. unfold reviewTextOf, trim. now rewrite (trimEnd_spaces _ H).
Qed.

End ReviewMore.

(* ================================================================== *)
(** * More about the solution parser *)
(* ================================================================== *)

Module SolutionMore.
Import JsString Json IssueAgent Spec Shape LexShape.
Import StringFacts JsonFacts SolutionFacts ChangeFacts.

(** The index into [jsonMatch] is never [undefined]. *)
Lemma jsonStr_defined (text : string) : exists str, jsonStr text = Some str.
Proof.
  unfold jsonStr. destruct (jsonMatch text) as [whole [g|]|s]; cbn.
  - destruct (truthy g); now eexists.
  - now eexists.
  - destruct s as [|c [|d s]]; cbn; now eexists.
Qed.

(** Without a match the text to parse is one character of the
    response. *)
Lemma jsonStr_raw (text : string) :
  fencedMatch text = None -> braceMatch text = None ->
  jsonStr text = Some match text with
                      | String _ (String d _) => String d ""
                      | _ => text
                      end.
Proof.
  intros Hf Hb. unfold jsonStr, jsonMatch. rewrite Hf, Hb.
  now destruct text as [|c [|d s]].
Qed.

Lemma parse_one_char (c : ascii) (v : JSON) :
  JSON_parse (trim (stripFences (String c ""))) = Some v ->
  exists d, 0 <= d <= 9 /\ v = JNumber {| mant := d; exp10 := 0 |}.
Proof.
  destruct c as [[] [] [] [] [] [] [] []]; vm_compute; intros H;
    try discriminate H; inversion H; eexists; (split; [|reflexivity]);
    split; discriminate.
Qed.

(** ** The fence markers *)

Lemma startsWith_head (p s : string) (c : ascii) :
  startsWith (String c p) s = true -> exists s', s = String c s' /\ startsWith p s' = true.
Proof.
  destruct s as [|a s]; cbn [startsWith]; [discriminate|].
  destruct (Ascii.eqb_spec c a) as [->|]; [|discriminate].
  intros H. now exists s.
Qed.

Lemma startsWith_cons (p s : string) (c : ascii) :
  startsWith (String c p) (String c s) = startsWith p s.
Proof. cbn [startsWith]. now rewrite Ascii.eqb_refl. Qed.

Lemma startsWith_empty (s : string) : startsWith "" s = true.
Proof. now destruct s. Qed.

(** A fence marker begins with three back quotes. *)
Lemma fence_json_ticks (s : string) :
  startsWith "```json" s = true -> startsWith "```" s = true.
Proof.
  intros H.
  apply startsWith_head in H as (s1 & -> & H).
  apply startsWith_head in H as (s2 & -> & H).
  apply startsWith_head in H as (s3 & -> & H).
  rewrite !startsWith_cons. apply startsWith_empty.
Qed.

(** What is left after the markers begins with back quotes only
    where the text did. *)
Lemma stripFrom_tick (s : string) :
  startsWith "`" (stripFrom 0 s) = true -> startsWith "`" s = true.
Proof.
  destruct s as [|c s]; [discriminate|]. cbn [stripFrom].
  destruct (startsWith "```json" (String c s)) eqn:E1.
  { intros _. apply fence_json_ticks in E1.
    apply startsWith_head in E1 as (s1 & E & _). rewrite E.
    rewrite startsWith_cons. apply startsWith_empty. }
  destruct (startsWith "```" (String c s)) eqn:E2.
  { intros _. apply startsWith_head in E2 as (s1 & E & _). rewrite E.
    rewrite startsWith_cons. apply startsWith_empty. }
  intros H. apply startsWith_head in H as (s1 & E & _).
  inversion E; subst. rewrite startsWith_cons. apply startsWith_empty.
Qed.

Lemma stripFrom_ticks (s : string) :
  startsWith "``" (stripFrom 0 s) = true -> startsWith "``" s = true.
Proof.
  destruct s as [|c s]; [discriminate|]. cbn [stripFrom].
  destruct (startsWith "```json" (String c s)) eqn:E1.
  { intros _. apply fence_json_ticks in E1.
    apply startsWith_head in E1 as (s1 & E & E1). rewrite E.
    apply startsWith_head in E1 as (s2 & -> & _).
    rewrite !startsWith_cons. apply startsWith_empty. }
  destruct (startsWith "```" (String c s)) eqn:E2.
  { intros _. apply startsWith_head in E2 as (s1 & E & E2). rewrite E.
    apply startsWith_head in E2 as (s2 & -> & _).
    rewrite !startsWith_cons. apply startsWith_empty. }
  intros H. apply startsWith_head in H as (s1 & E & H).
  inversion E; subst. rewrite startsWith_cons.
  now apply stripFrom_tick.
Qed.

Lemma dropPrefix_startsWith (p s : string) :
  dropPrefix p s = None <-> startsWith p s = false.
Proof.
  revert s. induction p as [|a p IH]; intros s.
  - destruct s; cbn; split; discriminate.
  - destruct s as [|c s]; cbn [dropPrefix startsWith]; [tauto|].
    destruct (Ascii.eqb a c); [apply IH | tauto].
Qed.

Lemma stripFrom_no_fence (s : string) :
  forall skip, findSub "```" (stripFrom skip s) = None.
Proof.
  induction s as [|c s IH]; intros skip.
  - now destruct skip.
  - destruct skip as [|k]; cbn [stripFrom]; [|apply IH].
    destruct (startsWith "```json" (String c s)) eqn:E1; [apply IH|].
    destruct (startsWith "```" (String c s)) eqn:E2; [apply IH|].
    change (findSub "```" (String c (stripFrom 0 s)))
      with (match dropPrefix "```" (String c (stripFrom 0 s)) with
            | Some r => Some ("", r)
            | None =>
                match findSub "```" (stripFrom 0 s) with
                | Some (b, r) => Some (String c b, r)
                | None => None
                end
            end).
    rewrite IH.
    destruct (dropPrefix "```" (String c (stripFrom 0 s))) eqn:E3;
      [|reflexivity].
    exfalso.
    assert (H : startsWith "```" (String c (stripFrom 0 s)) = true).
    { destruct (startsWith "```" (String c (stripFrom 0 s))) eqn:E4;
        [reflexivity|].
      apply dropPrefix_startsWith in E4. congruence. }
    apply startsWith_head in H as (s1 & E & H). inversion E; subst.
    apply stripFrom_ticks in H.
    rewrite startsWith_cons, H in E2. discriminate E2.
Qed.

Lemma findSub_cons_None (pat s : string) (c : ascii) :
  findSub pat (String c s) = None ->
  dropPrefix pat (String c s) = None /\ findSub pat s = None.
Proof.
  cbn [findSub].
  destruct (dropPrefix pat (String c s)); [discriminate|].
  destruct (findSub pat s) as [[b r]|]; [discriminate|]. auto.
Qed.

Lemma stripFrom_id (s : string) :
  findSub "```" s = None -> stripFrom 0 s = s.
Proof.
  induction s as [|c s IH]; intros H; [reflexivity|].
  apply findSub_cons_None in H as [Hd Hs].
  apply dropPrefix_startsWith in Hd.
  cbn [stripFrom].
  destruct (startsWith "```json" (String c s)) eqn:E1.
  { apply fence_json_ticks in E1. congruence. }
  rewrite Hd. now rewrite (IH Hs).
Qed.

(** ** White space around a JSON text *)








Lemma trimEnd_last (s : string) (c : ascii) :
  isTrimSpace c = false -> trimEnd (s ++ String c "") = s ++ String c "".
Proof.
  intros H. induction s as [|a s IH]; cbn [append trimEnd].
  - now rewrite H.
  - rewrite IH. now destruct s.
Qed.

(** ** What the function returns for the text of an object *)



(** ** The fenced block that is taken *)



End SolutionMore.

(* ================================================================== *)
(** * More about the application of changes *)
(* ================================================================== *)

Module ChangeMore.
Import JsString Json IssueAgent Paths.

(** What reading and writing back comes to. *)
Lemma read_write (fs fs1 : gmap string Node) (p : string) (f : string -> string) :
  (content ← readFileSync fs p; writeFileSync fs p (f content)) = Ok fs1 ->
  exists content,
    fs !! p = Some (File content) /\ fs1 = <[p := File (f content)]> fs.
Proof.
  unfold readFileSync, writeFileSync.
  destruct (fs !! p) as [[content|]|] eqn:E; cbn; rewrite ?E; try discriminate.
  intros H. inversion H. now exists content.
Qed.

(** One turn of the loop, by cases: the change is passed over, the
    file is written, or the turn throws. *)
Lemma applyChanges_turn (change : ChangeSpec) (fs : gmap string Node) :
  (exists entry,
      forall rest,
        applyChanges (change :: rest) fs
        = let '(r, fs', log) := applyChanges rest fs in
          (r, fs', entry :: log)) \/
  (exists p content,
      file change = Some p /\ fs !! p = Some (File content) /\
      forall rest,
        applyChanges (change :: rest) fs
        = let '(r, fs', log) :=
            applyChanges rest (<[p := File (applyChange content change)]> fs) in
          (r, fs', LogUpdated p :: log)) \/
  (exists p e,
      file change = Some p /\ fs !! p = Some Directory /\
      forall rest,
        applyChanges (change :: rest) fs = (Throw e, fs, [ErrorUpdating p e])).
Proof.
  destruct (negb (truthyOpt (file change)) || negb (truthyOpt (replacement change)))
    eqn:E1.
  { left. eexists. intros rest. cbn [applyChanges]. rewrite E1. reflexivity. }
  destruct (file change) as [p|] eqn:Ef; [|discriminate E1].
  destruct (existsSync fs p) eqn:E2.
  2:{ left. eexists. intros rest. cbn [applyChanges]. rewrite Ef, E1. cbn.
      rewrite E2. reflexivity. }
  pose proof E2 as Hex.
  unfold existsSync in E2. apply bool_decide_eq_true in E2 as [node Hn].
  destruct node as [content|].
  - right. left. exists p, content. split; [reflexivity|]. split; [exact Hn|].
    intros rest. cbn [applyChanges]. rewrite Ef, E1. cbn.
    rewrite Hex. cbn [negb]. unfold readFileSync. rewrite Hn. cbn.
    unfold writeFileSync. rewrite Hn. reflexivity.
  - right. right. exists p, (SystemError "EISDIR").
    split; [reflexivity|]. split; [exact Hn|].
    intros rest. cbn [applyChanges]. rewrite Ef, E1. cbn.
    rewrite Hex. cbn [negb]. unfold readFileSync. rewrite Hn. reflexivity.
Qed.

(** One turn of the loop with the names resolved. *)
Lemma applyChangesAt_turn (resolve : string -> string) (change : ChangeSpec)
      (fs : gmap string Node) :
  (exists entry,
      forall rest,
        applyChangesAt resolve (change :: rest) fs
        = let '(r, fs', log) := applyChangesAt resolve rest fs in
          (r, fs', entry :: log)) \/
  (exists q content,
      file change = Some q /\ fs !! resolve q = Some (File content) /\
      forall rest,
        applyChangesAt resolve (change :: rest) fs
        = let '(r, fs', log) :=
            applyChangesAt resolve rest
              (<[resolve q := File (applyChange content change)]> fs) in
          (r, fs', LogUpdated q :: log)) \/
  (exists q e,
      file change = Some q /\ fs !! resolve q = Some Directory /\
      forall rest,
        applyChangesAt resolve (change :: rest) fs
        = (Throw e, fs, [ErrorUpdating q e])).
Proof.
  destruct (negb (truthyOpt (file change)) || negb (truthyOpt (replacement change)))
    eqn:E1.
  { left. eexists. intros rest. cbn [applyChangesAt]. rewrite E1. reflexivity. }
  destruct (file change) as [q|] eqn:Ef; [|discriminate E1].
  destruct (existsSync fs (resolve q)) eqn:E2.
  2:{ left. eexists. intros rest. cbn [applyChangesAt]. rewrite Ef, E1. cbn.
      rewrite E2. reflexivity. }
  pose proof E2 as Hex.
  unfold existsSync in E2. apply bool_decide_eq_true in E2 as [node Hn].
  destruct node as [content|].
  - right. left. exists q, content. split; [reflexivity|]. split; [exact Hn|].
    intros rest. cbn [applyChangesAt]. rewrite Ef, E1. cbn.
    rewrite Hex. cbn [negb]. unfold readFileSync. rewrite Hn. cbn.
    unfold writeFileSync. rewrite Hn. reflexivity.
  - right. right. exists q, (SystemError "EISDIR").
    split; [reflexivity|]. split; [exact Hn|].
    intros rest. cbn [applyChangesAt]. rewrite Ef, E1. cbn.
    rewrite Hex. cbn [negb]. unfold readFileSync. rewrite Hn. reflexivity.
Qed.

(** Files that no path of a change resolves to keep their node. *)
Lemma applyChangesAt_frame (resolve : string -> string) (changes : list ChangeSpec) :
  forall (fs : gmap string Node) (p : string),
    (forall change q, In change changes -> file change = Some q -> resolve q <> p) ->
    snd (fst (applyChangesAt resolve changes fs)) !! p = fs !! p.
Proof.
  induction changes as [|change rest IH]; intros fs p H; [reflexivity|].
  assert (Hrest : forall c q, In c rest -> file c = Some q -> resolve q <> p)
    by (intros c q Hc; apply H; now right).
  destruct (applyChangesAt_turn resolve change fs)
    as [[entry E] | [(q & content & Hf & Hq & E) | (q & e & Hf & Hq & E)]];
    rewrite E.
  - specialize (IH fs p Hrest).
    destruct (applyChangesAt resolve rest fs) as [[r fs'] log]. exact IH.
  - specialize (IH (<[resolve q := File (applyChange content change)]> fs) p Hrest).
    destruct (applyChangesAt resolve rest _) as [[r fs'] log]. cbn in IH |- *.
    rewrite IH. apply lookup_insert_ne.
    apply (H change q); [now left | exact Hf].
  - reflexivity.
Qed.

(** The file that the path of a change resolves to is the one
    written. *)
Lemma applyChangesAt_update (resolve : string -> string) (change : ChangeSpec)
      (fs : gmap string Node) (q r content : string) :
  file change = Some q -> q <> "" ->
  replacement change = Some r -> r <> "" ->
  fs !! resolve q = Some (File content) ->
  applyChangesAt resolve [change] fs
  = (Ok tt, <[resolve q := File (applyChange content change)]> fs, [LogUpdated q]).
Proof.
  intros Hf Hq Hr Hr' Hfs.
  assert (T1 : truthyOpt (file change) = true)
    by (rewrite Hf; now destruct q).
  assert (T2 : truthyOpt (replacement change) = true)
    by (rewrite Hr; now destruct r).
  assert (Hex : existsSync fs (resolve q) = true)
    by (unfold existsSync; rewrite bool_decide_eq_true_2; eauto).
  cbn [applyChangesAt]. rewrite T1, T2, Hf. cbn [negb orb].
  unfold default, id. cbn [from_option].
  rewrite Hex. cbn [negb]. unfold readFileSync. rewrite Hfs. cbn.
  unfold writeFileSync. rewrite Hfs. reflexivity.
Qed.

(** With every path its own name the loop is the one over path
    texts. *)
Lemma applyChangesAt_id (changes : list ChangeSpec) :
  forall fs, applyChangesAt (fun p => p) changes fs = applyChanges changes fs.
Proof.
  induction changes as [|change rest IH]; intros fs; [reflexivity|].
  cbn [applyChangesAt applyChanges].
  destruct (negb (truthyOpt (file change)) || negb (truthyOpt (replacement change)));
    [now rewrite IH|].
  destruct (negb (existsSync fs (default "" (file change)))); [now rewrite IH|].
  destruct (readFileSync fs (default "" (file change)) ≫= _) as [fs1|e];
    [now rewrite IH | reflexivity].
Qed.

(** The kind of node at a path. *)
Lemma applyChanges_kinds (changes : list ChangeSpec) :
  forall (fs : gmap string Node) (p : string),
    (snd (fst (applyChanges changes fs)) !! p = None <-> fs !! p = None) /\
    (snd (fst (applyChanges changes fs)) !! p = Some Directory
     <-> fs !! p = Some Directory).
Proof.
  induction changes as [|change rest IH]; intros fs p; [tauto|].
  destruct (applyChanges_turn change fs)
    as [[entry E] | [(q & content & Hf & Hq & E) | (q & e & Hf & Hq & E)]];
    rewrite E.
  - specialize (IH fs p).
    destruct (applyChanges rest fs) as [[r fs'] log]. exact IH.
  - specialize (IH (<[q := File (applyChange content change)]> fs) p).
    destruct (applyChanges rest _) as [[r fs'] log]. cbn in IH |- *.
    destruct (decide (q = p)) as [->|Hne].
    + rewrite lookup_insert_eq in IH. rewrite Hq.
      destruct IH as [I1 I2]. split; split; intros H;
        try discriminate H; [apply I1 in H | apply I2 in H]; discriminate H.
    + now rewrite lookup_insert_ne in IH.
  - cbn. tauto.
Qed.

Lemma applyChanges_app (xs ys : list ChangeSpec) :
  forall fs,
    applyChanges (xs ++ ys) fs
    = match applyChanges xs fs with
      | (Ok _, fs1, log1) =>
          let '(r, fs2, log2) := applyChanges ys fs1 in
          (r, fs2, (log1 ++ log2)%list)
      | (Throw e, fs1, log1) => (Throw e, fs1, log1)
      end.
Proof.
  induction xs as [|change rest IH]; intros fs.
  - cbn [app applyChanges].
    now destruct (applyChanges ys fs) as [[r fs2] log2].
  - cbn [app].
    destruct (applyChanges_turn change fs)
      as [[entry E] | [(q & content & Hf & Hq & E) | (q & e & Hf & Hq & E)]];
      rewrite !E.
    + rewrite IH.
      destruct (applyChanges rest fs) as [[[u|e] fs1] log1]; [|reflexivity].
      now destruct (applyChanges ys fs1) as [[r fs2] log2].
    + rewrite IH.
      destruct (applyChanges rest _) as [[[u|e] fs1] log1]; [|reflexivity].
      now destruct (applyChanges ys fs1) as [[r fs2] log2].
    + reflexivity.
Qed.

End ChangeMore.

(* ================================================================== *)
(** * The base branch and the annotations *)
(* ================================================================== *)

Module BranchFacts.
Import JsString Locator Diff Json Review BranchInfo BranchShape.
Import StringFacts LocatorFacts SolutionFacts SolutionMore.

(** The characters of a plain text are read as they stand, up to the
    closing quote. *)
Lemma lexFrom_plain (name : string) :
  forall (acc : jstring) (rest : string),
    plainText name = true ->
    lexFrom (SStr acc) (name ++ String dquote rest)
    = match lexFrom SStart rest with
      | Some ts => Some (TString (rev acc ++ units name)%list :: ts)
      | None => None
      end.
Proof.
  induction name as [|c name IH]; intros acc rest H.
  - cbn [append lexFrom step]. unfold isChar. rewrite Ascii.eqb_refl.
    unfold units. cbn [list_ascii_of_string map]. rewrite List.app_nil_r.
    now destruct (lexFrom SStart rest).
  - cbn [plainText] in H.
    apply andb_prop in H as [H Hn]. apply andb_prop in H as [H H3].
    apply andb_prop in H as [H1 H2].
    apply negb_true_iff in H1, H2, H3.
    cbn [append lexFrom step]. rewrite H1, H2, H3, (IH _ _ Hn).
    unfold units. cbn [list_ascii_of_string map rev].
    rewrite <- List.app_assoc. cbn [app].
    now destruct (lexFrom SStart rest).
Qed.

Lemma branchAnswer_parse (name : string) :
  plainText name = true ->
  JSON_parse (branchAnswer name)
  = Some (JObject [(units "branch", JString (units name))]).
Proof.
  intros H. unfold JSON_parse, lex, branchAnswer, quoted.
  change ("{" ++ String dquote ("branch" ++ String dquote "") ++ ": " ++
          String dquote (name ++ String dquote "") ++ "}")
    with (String "{" (String dquote ("branch" ++ String dquote
           (String ":" (String " " (String dquote
             ((name ++ String dquote "") ++ "}"))))))).
  rewrite app_assoc.
  change (String dquote "" ++ "}") with (String dquote "}").
  assert (Eopen : forall tail,
             lexFrom SStart (String "{" (String dquote tail))
             = match lexFrom (SStr []) tail with
               | Some ts => Some (TLBrace :: ts)
               | None => None
               end).
  { intros tail. cbn [lexFrom].
    change (step SStart "{") with (Some ([TLBrace], SStart)).
    change (step SStart dquote) with (Some (@nil Token, SStr [])).
    cbn. now destruct (lexFrom (SStr []) tail). }
  assert (Ecolon : forall tail,
             lexFrom SStart (String ":" (String " " (String dquote tail)))
             = match lexFrom (SStr []) tail with
               | Some ts => Some (TColon :: ts)
               | None => None
               end).
  { intros tail. cbn [lexFrom].
    change (step SStart ":") with (Some ([TColon], SStart)).
    change (step SStart " ") with (Some (@nil Token, SStart)).
    change (step SStart dquote) with (Some (@nil Token, SStr [])).
    cbn. now destruct (lexFrom (SStr []) tail). }
  rewrite Eopen, (lexFrom_plain "branch" [] _ eq_refl), Ecolon.
  rewrite (lexFrom_plain name [] "}" H).
  reflexivity.
Qed.

Lemma branchAnswer_trim (name : string) :
  trim (branchAnswer name) = branchAnswer name.
Proof.
  unfold branchAnswer, trim.
  replace ("{" ++ quoted "branch" ++ ": " ++ quoted name ++ "}")
    with (("{" ++ quoted "branch" ++ ": " ++ quoted name) ++ "}")
    by now rewrite !app_assoc.
  rewrite trimEnd_last by reflexivity. reflexivity.
Qed.

Lemma units_nonempty (s : string) : s <> "" -> units s <> [].
Proof. destruct s; [contradiction | discriminate]. Qed.

Lemma lookup_single (key : string) (v : JSON) :
  lookup (units key) [(units key, v)] = Some v.
Proof.
  cbn [lookup]. unfold jstring_eqb. now rewrite bool_decide_eq_true_2.
Qed.

End BranchFacts.

(* ================================================================== *)
(** * The driver [reviewPR] *)
(* ================================================================== *)

Module DriverFacts.
Import JsString Locator Json Review Spec PrReview PrShape.
Import LocatorMore ReviewMore.

Lemma getReview_Ok (api : ApiOutcome) (filename : string) :
  exists reviews, fst (getReview api filename) = Ok reviews.
Proof.
  destruct api as [e|text]; cbn [getReview]; [now eexists|].
  destruct (validate (reviewTextOf text)); now eexists.
Qed.

Lemma getReview_lineAndComment (api : ApiOutcome) (filename : string)
      (reviews : list JSON) :
  fst (getReview api filename) = Ok (Some reviews) ->
  Forall lineAndComment reviews.
Proof.
  destruct api as [e|text]; cbn [getReview]; [discriminate|].
  unfold validate.
  destruct (parseReviewText (reviewTextOf text)) as [[| | | |elements|]|];
    cbn; try discriminate.
  destruct (filterReviews elements) as [kept|e] eqn:Ef; [|discriminate].
  cbn. intros H. inversion H; subst kept.
  destruct (filterReviews_Ok _ _ Ef) as [_ ->].
  eapply List.Forall_impl; [|apply filter_all_true].
  intros r. apply wellFormed_lineAndComment.
Qed.

Lemma sameCounts_refl (a : State) : sameCounts a a.
Proof. now repeat split. Qed.

Lemma sameCounts_trans (a b c : State) :
  sameCounts a b -> sameCounts b c -> sameCounts a c.
Proof. unfold sameCounts. intuition congruence. Qed.

Lemma sameCounts_sym (a b : State) : sameCounts a b -> sameCounts b a.
Proof. unfold sameCounts. intuition congruence. Qed.

Lemma sameCounts_logged (a : State) (entries : list LogEntry) :
  sameCounts (logged a entries) a.
Proof. now repeat split. Qed.

(** ** The test on the file name *)

Lemma endsWith_spec (suffix s : string) :
  endsWith suffix s = true <-> exists pre, s = pre ++ suffix.
Proof.
  split.
  - induction s as [|c s IH]; cbn [endsWith]; intros H;
      apply orb_prop in H as [H|H].
    + apply String.eqb_eq in H. now exists "".
    + discriminate H.
    + apply String.eqb_eq in H. now exists "".
    + destruct (IH H) as [pre ->]. now exists (String c pre).
  - intros [pre ->]. induction pre as [|c pre IH].
    + destruct suffix; cbn [endsWith append]; now rewrite String.eqb_refl.
    + cbn [endsWith append]. rewrite IH. apply orb_true_r.
Qed.

Lemma lowerCase_app (a b : string) :
  lowerCase (a ++ b) = lowerCase a ++ lowerCase b.
Proof. induction a as [|c a IH]; cbn; [reflexivity | now rewrite IH]. Qed.

Lemma lowerCase_split (s : string) :
  forall a b,
    lowerCase s = a ++ b ->
    exists a' b', s = a' ++ b' /\ lowerCase a' = a /\ lowerCase b' = b.
Proof.
  induction s as [|c s IH]; intros a b H.
  - destruct a; [|discriminate H]. destruct b; [|discriminate H].
    now exists "", "".
  - destruct a as [|x a].
    + exists "", (String c s). auto.
    + cbn [lowerCase append] in H. inversion H as [[Hc Hs]].
      destruct (IH _ _ Hs) as (a' & b' & -> & Ha & Hb).
      exists (String c a'), b'. cbn [lowerCase append].
      rewrite Ha, Hb. auto.
Qed.

Lemma toLower_dot (c : ascii) : toLower c = "."%char -> c = "."%char.
Proof.
  destruct c as [[] [] [] [] [] [] [] []]; vm_compute; intros H;
    (reflexivity || discriminate H).
Qed.

(** The text of a valid diff is not empty. *)
Lemma render_truthy (d : Diff.Diff) :
  Diff.valid d = true -> truthy (Diff.render d) = true.
Proof.
  unfold Diff.valid. intros H. apply andb_prop in H as [_ H].
  unfold Diff.render, Diff.diffLines. unfold Diff.annotate in *.
  destruct (Diff.fileMarkers d) as [[a b]|]; [reflexivity|].
  destruct (Diff.hunks d) as [|h hs]; [discriminate H|].
  cbn [Diff.annotateMarkers app flat_map Diff.annotateHunk map fst].
  unfold Diff.headerLine.
  destruct (map fst (Diff.annotateBody (Z.of_N (Diff.newStart h)) (Diff.body h)
                     ++ flat_map Diff.annotateHunk hs)%list); reflexivity.
Qed.

Section Driver.

Variable lineOf : num -> option Z.
Variable createReviewComment : nat -> option RequestError.


Lemma positionOf_bounds (patchText : string) (line : option JSON) (p : nat) :
  positionOf lineOf patchText line = Some p ->
  (1 <= p <= length (split_nl patchText))%nat.
Proof.
  unfold PrReview.positionOf.
  destruct line as [[| |n| | |]|]; try discriminate.
  destruct (lineOf n) as [target|]; [|discriminate].
  unfold findPosition. intros H.
  destruct (scan_Some _ _ _ _ _ H) as [Hp _]. lia.
Qed.

(** ** What the loop over the reviews of a file does to the state *)

Lemma postReviews_posts (file : PrFile) (sha : string) (reviews : list JSON) :
  skipFile file = false -> Forall lineAndComment reviews ->
  forall st st' t,
    postReviews lineOf createReviewComment file sha reviews st = (st', t) ->
    exists new,
      posted st' = (posted st ++ new)%list /\
      Forall (commentFor sha file) new /\
      processedFiles st' = (processedFiles st + length new)%nat /\
      skippedFiles st' = skippedFiles st /\
      errorFiles st' = errorFiles st /\
      requests st' = (requests st + length new +
                      match t with Some _ => 1 | None => 0 end)%nat /\
      (forall e, t = Some e -> exists r, e = ThrownRequest r).
Proof.
  intros Hskip Hall. induction Hall as [|review rest Hr _ IH]; intros st st' t H.
  - inversion H; subst. exists []. rewrite List.app_nil_r. cbn.
    repeat split; auto; try lia. discriminate.
  - cbn [PrReview.postReviews] in H.
    destruct (truthyOpt (patch file)) eqn:Hpatch; cbn [negb] in H.
    + destruct Hr as (ms & n & s & -> & Hl & Hc & Hs).
      cbn [getProp] in H. rewrite Hl, Hc in H.
      destruct (positionOf lineOf (default "" (patch file)) (Some (JNumber n)))
        as [p|] eqn:Hpos.
      * destruct (createReviewComment (requests st)) as [e|].
        -- inversion H; subst. exists []. rewrite List.app_nil_r. cbn.
           repeat split; auto; try lia.
           intros e' He'. inversion He'. now eexists.
        -- destruct (IH _ _ _ H) as (new & Hp & Hf & Hn & Hsk & He & Hq & Ht).
           cbn in Hp, Hn, Hsk, He, Hq.
           exists ({| body := Some (JString s); commit_id := sha;
                      path := filename file; position := p |} :: new).
           rewrite Hp, <- List.app_assoc. cbn [app length].
           repeat split; auto; try lia.
           constructor; [|exact Hf].
           destruct (patch file) as [pt|] eqn:Ept; [|discriminate Hpatch].
           repeat split; cbn; auto.
           ++ exists pt. split; [exact Ept|]. split.
              ** intros ->. discriminate Hpatch.
              ** apply (positionOf_bounds _ _ _ Hpos).
           ++ now exists s.
      * destruct (IH _ _ _ H) as (new & Hp & Hrest). exists new. auto.
    + destruct (IH _ _ _ H) as (new & Hp & Hrest). exists new. auto.
Qed.

(** The loop asks for nothing after a request that failed. *)
Lemma postReviews_stops (file : PrFile) (sha : string) (reviews : list JSON)
      (k : nat) (e : RequestError) :
  createReviewComment k = Some e ->
  forall st,
    (requests st <= k)%nat ->
    (requests (fst (postReviews lineOf createReviewComment file sha reviews st)) <= S k)%nat.
Proof.
  intros Hk. induction reviews as [|review rest IH]; intros st Hst.
  - cbn. lia.
  - cbn [PrReview.postReviews].
    destruct (negb (truthyOpt (patch file))); [now apply IH|].
    destruct (getProp review "line") as [line|]; [|cbn; lia].
    destruct (positionOf lineOf (default "" (patch file)) line); [|now apply IH].
    destruct (getProp review "comment") as [comment|]; [|cbn; lia].
    destruct (createReviewComment (requests st)) as [e'|] eqn:Eq.
    + cbn. lia.
    + apply IH. cbn.
      assert (requests st <> k) by (intros Heq; rewrite Heq in Eq; congruence).
      lia.
Qed.

(** The log has no part in what the loop does. *)
Lemma postReviews_sameCounts (file : PrFile) (sha : string) (reviews : list JSON) :
  forall a b,
    sameCounts a b ->
    sameCounts (fst (postReviews lineOf createReviewComment file sha reviews a))
               (fst (postReviews lineOf createReviewComment file sha reviews b)) /\
    snd (postReviews lineOf createReviewComment file sha reviews a) = snd (postReviews lineOf createReviewComment file sha reviews b).
Proof.
  induction reviews as [|review rest IH]; intros a b Hab.
  - now split.
  - cbn [PrReview.postReviews].
    destruct (negb (truthyOpt (patch file))).
    { apply IH. eapply sameCounts_trans; [apply sameCounts_logged|].
      eapply sameCounts_trans; [exact Hab|].
      apply sameCounts_sym, sameCounts_logged. }
    destruct (getProp review "line") as [line|]; [|now split].
    destruct (positionOf lineOf (default "" (patch file)) line).
    2:{ apply IH. eapply sameCounts_trans; [apply sameCounts_logged|].
        eapply sameCounts_trans; [exact Hab|].
        apply sameCounts_sym, sameCounts_logged. }
    destruct (getProp review "comment") as [comment|]; [|now split].
    destruct Hab as (H1 & H2 & H3 & H4 & H5). rewrite H2.
    destruct (createReviewComment (requests b)).
    + cbn. repeat split; cbn; congruence.
    + apply IH. repeat split; cbn; congruence.
Qed.

Lemma caught_counts (file : PrFile) (st : State) (t : Thrown) :
  posted (caught file st t) = posted st /\
  requests (caught file st t) = requests st /\
  processedFiles (caught file st t) = processedFiles st /\
  (skippedFiles (caught file st t) + errorFiles (caught file st t)
   = S (skippedFiles st + errorFiles st))%nat.
Proof.
  unfold caught. destruct (statusOf t) as [[|q]|]; try (cbn; repeat split; lia).
  do 9 (destruct q as [q|q|]; try (cbn; repeat split; lia)).
Qed.

Lemma caught_sameCounts (file : PrFile) (a b : State) (t : Thrown) :
  sameCounts a b -> sameCounts (caught file a t) (caught file b t).
Proof.
  intros (H1 & H2 & H3 & H4 & H5). unfold caught.
  destruct (statusOf t) as [n|]; [|repeat split; cbn; congruence].
  destruct n as [|q]; [repeat split; cbn; congruence|].
  do 9 (destruct q as [q|q|]; try (repeat split; cbn; congruence)).
Qed.

(** ** One file *)

Lemma reviewFile_posts (file : PrFile) (sha : string) (api : ApiOutcome)
      (st : State) :
  skipFile file = false ->
  exists new (k : nat),
    posted (reviewFile lineOf createReviewComment file sha api st) = (posted st ++ new)%list /\
    Forall (commentFor sha file) new /\
    processedFiles (reviewFile lineOf createReviewComment file sha api st)
    = (processedFiles st + length new)%nat /\
    (k <= 1)%nat /\
    (skippedFiles (reviewFile lineOf createReviewComment file sha api st)
     + errorFiles (reviewFile lineOf createReviewComment file sha api st)
     = skippedFiles st + errorFiles st + k)%nat /\
    requests (reviewFile lineOf createReviewComment file sha api st) = (requests st + length new + k)%nat.
Proof.
  intros Hskip. unfold PrReview.reviewFile.
  destruct (getReview_Ok api (filename file)) as [reviews Hg].
  pose proof (getReview_lineAndComment api (filename file)) as Hall.
  destruct (getReview api (filename file)) as [r entries].
  cbn [fst] in Hg, Hall. subst r.
  destruct reviews as [reviews|].
  - specialize (Hall reviews eq_refl).
    destruct (PrReview.postReviews _ _ _ _ _ _) as [st3 t] eqn:Ep.
    destruct (postReviews_posts file sha reviews Hskip Hall _ _ _ Ep)
      as (new & Hp & Hf & Hn & Hsk & He & Hq & Ht).
    cbn in Hp, Hn, Hsk, He, Hq.
    destruct t as [t|].
    + destruct (caught_counts file st3 t) as (C1 & C2 & C3 & C4).
      exists new, 1%nat. rewrite C1, C2, C3, C4. repeat split; auto; lia.
    + exists new, 0%nat. repeat split; auto; lia.
  - exists [], 0%nat. rewrite List.app_nil_r. cbn. repeat split; auto; lia.
Qed.

Lemma reviewFile_sameCounts (file : PrFile) (sha : string) (api : ApiOutcome)
      (a b : State) :
  sameCounts a b ->
  sameCounts (reviewFile lineOf createReviewComment file sha api a) (reviewFile lineOf createReviewComment file sha api b).
Proof.
  intros Hab. unfold PrReview.reviewFile.
  destruct (getReview api (filename file)) as [[[reviews|]|e] entries].
  - match goal with
    | |- sameCounts (let '(_, _) := PrReview.postReviews _ _ _ _ ?rs ?x in _)
                    (let '(_, _) := PrReview.postReviews _ _ _ _ ?rs ?y in _) =>
        destruct (postReviews_sameCounts file sha rs x y) as [Hs Ht]
    end.
    { eapply sameCounts_trans; [apply sameCounts_logged|].
      eapply sameCounts_trans; [apply sameCounts_logged|].
      eapply sameCounts_trans; [exact Hab|].
      eapply sameCounts_trans; [|apply sameCounts_sym, sameCounts_logged].
      apply sameCounts_sym, sameCounts_logged. }
    destruct (PrReview.postReviews _ _ _ _ _ (logged (logged a _) _)) as [a3 ta].
    destruct (PrReview.postReviews _ _ _ _ _ (logged (logged b _) _)) as [b3 tb].
    cbn in Hs, Ht. subst tb.
    destruct ta; [now apply caught_sameCounts | exact Hs].
  - eapply sameCounts_trans; [apply sameCounts_logged|].
    eapply sameCounts_trans; [apply sameCounts_logged|].
    eapply sameCounts_trans; [exact Hab|].
    eapply sameCounts_trans; [|apply sameCounts_sym, sameCounts_logged].
    apply sameCounts_sym, sameCounts_logged.
  - apply caught_sameCounts.
    eapply sameCounts_trans; [apply sameCounts_logged|].
    eapply sameCounts_trans; [apply sameCounts_logged|].
    eapply sameCounts_trans; [exact Hab|].
    eapply sameCounts_trans; [|apply sameCounts_sym, sameCounts_logged].
    apply sameCounts_sym, sameCounts_logged.
Qed.

(** A file for which [getReview] gives [null] leaves the state as
    it was, the log apart. *)
Lemma reviewFile_null (file : PrFile) (sha : string) (api : ApiOutcome)
      (st : State) :
  fst (getReview api (filename file)) = Ok None ->
  sameCounts (reviewFile lineOf createReviewComment file sha api st) st.
Proof.
  intros Hg. unfold PrReview.reviewFile.
  destruct (getReview api (filename file)) as [r entries].
  cbn in Hg. subst r.
  eapply sameCounts_trans; apply sameCounts_logged.
Qed.

(** A file without patch text as well. *)
Lemma postReviews_no_patch (file : PrFile) (sha : string) (reviews : list JSON) :
  truthyOpt (patch file) = false ->
  forall st,
    sameCounts (fst (postReviews lineOf createReviewComment file sha reviews st)) st /\
    snd (postReviews lineOf createReviewComment file sha reviews st) = None.
Proof.
  intros Hp. induction reviews as [|review rest IH]; intros st.
  - split; [apply sameCounts_refl | reflexivity].
  - cbn [PrReview.postReviews]. rewrite Hp. cbn [negb].
    destruct (IH (logged st [WarningNoPatch (filename file)])) as [Hs Ht].
    split; [|exact Ht].
    eapply sameCounts_trans; [exact Hs | apply sameCounts_logged].
Qed.

Lemma reviewFile_no_patch (file : PrFile) (sha : string) (api : ApiOutcome)
      (st : State) :
  truthyOpt (patch file) = false ->
  sameCounts (reviewFile lineOf createReviewComment file sha api st) st.
Proof.
  intros Hp. unfold PrReview.reviewFile.
  destruct (getReview_Ok api (filename file)) as [reviews Hg].
  destruct (getReview api (filename file)) as [r entries].
  cbn in Hg. subst r. destruct reviews as [reviews|].
  - match goal with
    | |- sameCounts (let '(_, _) := PrReview.postReviews _ _ _ _ ?rs ?x in _) _ =>
        destruct (postReviews_no_patch file sha rs Hp x) as [Hs Ht]
    end.
    destruct (PrReview.postReviews _ _ _ _ _ _) as [st3 t].
    cbn in Hs, Ht. subst t.
    eapply sameCounts_trans; [exact Hs|].
    eapply sameCounts_trans; apply sameCounts_logged.
  - eapply sameCounts_trans; apply sameCounts_logged.
Qed.

(** ** The loop over the files *)

Lemma reviewFiles_app (sha : string) (xs ys : list (PrFile * ApiOutcome)) :
  forall st,
    reviewFiles lineOf createReviewComment sha (xs ++ ys)%list st = reviewFiles lineOf createReviewComment sha ys (reviewFiles lineOf createReviewComment sha xs st).
Proof.
  induction xs as [|[file api] xs IH]; intros st; [reflexivity|].
  cbn [app PrReview.reviewFiles]. destruct (skipFile file); apply IH.
Qed.

Lemma reviewFiles_sameCounts (sha : string) (files : list (PrFile * ApiOutcome)) :
  forall a b,
    sameCounts a b -> sameCounts (reviewFiles lineOf createReviewComment sha files a) (reviewFiles lineOf createReviewComment sha files b).
Proof.
  induction files as [|[file api] files IH]; intros a b Hab; [exact Hab|].
  cbn [PrReview.reviewFiles]. destruct (skipFile file); apply IH.
  - destruct Hab as (H1 & H2 & H3 & H4 & H5). repeat split; cbn; congruence.
  - now apply reviewFile_sameCounts.
Qed.

Lemma reviewFiles_posts (sha : string) (files : list (PrFile * ApiOutcome)) :
  forall st,
    exists new (k : nat),
      posted (reviewFiles lineOf createReviewComment sha files st) = (posted st ++ new)%list /\
      Forall (fun c => exists file api,
                         In (file, api) files /\ commentFor sha file c) new /\
      processedFiles (reviewFiles lineOf createReviewComment sha files st)
      = (processedFiles st + length new)%nat /\
      (skippedFiles (reviewFiles lineOf createReviewComment sha files st)
       + errorFiles (reviewFiles lineOf createReviewComment sha files st)
       <= skippedFiles st + errorFiles st + length files)%nat /\
      (skippedFiles st + errorFiles st + k
       <= skippedFiles (reviewFiles lineOf createReviewComment sha files st)
          + errorFiles (reviewFiles lineOf createReviewComment sha files st))%nat /\
      requests (reviewFiles lineOf createReviewComment sha files st) = (requests st + length new + k)%nat.
Proof.
  induction files as [|[file api] files IH]; intros st.
  - exists [], 0%nat. rewrite List.app_nil_r. cbn. repeat split; auto; lia.
  - cbn [PrReview.reviewFiles]. destruct (skipFile file) eqn:Hskip.
    + destruct (IH (skipped (logged st [InfoSkipping (filename file)])))
        as (new & k & Hp & Hf & Hn & Hle & Hge & Hq).
      cbn in Hp, Hn, Hle, Hge, Hq.
      exists new, k. repeat split; auto; cbn [length]; try lia.
      eapply List.Forall_impl; [|exact Hf].
      intros c (f & a & Hin & Hc). exists f, a. split; [now right | exact Hc].
    + destruct (reviewFile_posts file sha api st Hskip)
        as (new1 & k1 & Hp1 & Hf1 & Hn1 & Hk1 & Hs1 & Hq1).
      destruct (IH (reviewFile lineOf createReviewComment file sha api st))
        as (new & k & Hp & Hf & Hn & Hle & Hge & Hq).
      exists (new1 ++ new)%list, (k1 + k)%nat.
      rewrite Hp, Hp1, List.app_assoc, List.length_app.
      repeat split; auto; cbn [length]; try lia.
      apply List.Forall_app. split.
      * eapply List.Forall_impl; [|exact Hf1].
        intros c Hc. exists file, api. split; [now left | exact Hc].
      * eapply List.Forall_impl; [|exact Hf].
        intros c (f & a & Hin & Hc). exists f, a. split; [now right | exact Hc].
Qed.

End Driver.

End DriverFacts.

(* ================================================================== *)
(** * The properties of the specification *)
(* ================================================================== *)

Import JsString Locator Diff Json Review IssueAgent Spec Shape Examples.
Import StringFacts LocatorFacts JsonFacts SolutionFacts ChangeFacts ReviewFacts.

(** ** The locator *)

(** C1, as amended.  For every valid unified diff without the no-newline
    marker and in which no added line has a text that begins with [++],
    and every new-file line number [L] that an added or context line of
    the diff shows, the locator returns a 1-based position, counted over
    all lines of the diff, and the diff line at that position is the one
    that shows line [L]. *)
Theorem locator_finds_shown_line (d : Diff) (L : Z) :
  valid d = true -> plainLines d = true -> shows d L ->
  exists p, findPosition (render d) L = Some p /\ newLineAt d p = Some L.
Proof.
  intros Hv Hp Hs.
  destruct (findPosition_shown d L Hv Hp Hs) as (k & s & Hfind & Hk).
  eexists. split; [exact Hfind|].
  now rewrite newLineAt_hunks, Hk.
Qed.

Lemma locator_finds_shown_line_witness :
  valid twoHunks = true /\ plainLines twoHunks = true /\
  shows twoHunks 13 /\
  exists p, findPosition (render twoHunks) 13 = Some p /\
            newLineAt twoHunks p = Some 13.
Proof.
  assert (Hs : shows twoHunks 13) by (unfold shows; cbn; tauto).
  split; [reflexivity|]. split; [reflexivity|]. split; [exact Hs|].
  exact (locator_finds_shown_line twoHunks 13 eq_refl eq_refl Hs).
Defined.

(** C1 as the specification states it, for every valid diff, fails on
    two kinds of line.  In a new file that starts with the line [++i;]
    the added line reads [+++i;] and is passed over as a file marker, so
    the position returned for line 1 is that of line 2.  And the line
    [\ No newline at end of file] is counted as a line of the new file,
    so after it the position returned for line 1 is that of the marker
    and not of the added line. *)
Lemma locator_uncounted_line_counterexample :
  (valid markerLikeAddition = true /\ shows markerLikeAddition 1 /\
   findPosition (render markerLikeAddition) 1 = Some 3%nat /\
   newLineAt markerLikeAddition 3 = Some 2) /\
  (valid noNewlineAtEnd = true /\ shows noNewlineAtEnd 1 /\
   findPosition (render noNewlineAtEnd) 1 = Some 3%nat /\
   newLineAt noNewlineAtEnd 3 = None /\
   newLineAt noNewlineAtEnd 4 = Some 1).
Proof.
  split.
  - split; [reflexivity|]. split; [unfold shows; cbn; tauto|].
    split; reflexivity.
  - split; [reflexivity|]. split; [unfold shows; cbn; tauto|].
    split; [reflexivity|]. split; reflexivity.
Qed.

(** C2.  The diff [@@ -5,2 +5 @@], [-old], [ ctx] is valid and shows
    no line 4, yet for target 4 the locator returns position 2, the
    removed line: the header leaves the counter at 4 and the comparison
    with the target is made on removed lines too. *)
Theorem locator_returns_removed_line :
  valid leadingRemoval = true /\
  diffLines leadingRemoval = ["@@ -5,2 +5 @@"; "-old"; " ctx"] /\
  ~ shows leadingRemoval 4 /\
  findPosition (render leadingRemoval) 4 = Some 2%nat /\
  tagAt leadingRemoval 2 = Some Removed.
Proof.
  split; [reflexivity|]. split; [reflexivity|]. split.
  - unfold shows; cbn. intros [H|[H|[H|[]]]]; discriminate H.
  - split; reflexivity.
Qed.

(** A target past the end is found as well when the diff holds the
    no-newline marker: the new file of [noNewlineAtEnd] has one line,
    and target 2 gets the position of that line. *)
Example locator_past_the_end :
  ~ shows noNewlineAtEnd 2 /\
  findPosition (render noNewlineAtEnd) 2 = Some 4%nat /\
  newLineAt noNewlineAtEnd 4 = Some 1.
Proof.
  split.
  - unfold shows; cbn. intros [H|[H|[H|[H|[H|[]]]]]]; discriminate H.
  - split; reflexivity.
Qed.

(** C9.  In a valid diff made of the two hunks [@@ -1,3 +1,3 @@] and
    [@@ -10,2 +12,4 @@], whatever their lines (plain ones: no marker, no
    added text beginning with [++]), the second header sets the counter
    to 11, and target line 13 is found at a position after the second
    header line and within the second hunk, on the line that shows
    line 13. *)
Theorem two_hunks_line_13_in_second_hunk
        (m : option (string * string)) (head1 head2 : string)
        (b1 b2 : list (Tag * string)) :
  let h1 := {| oldStart := 1; oldLen := 3; newStart := 1; newLen := 3;
               heading := head1; body := b1 |} in
  let h2 := {| oldStart := 10; oldLen := 2; newStart := 12; newLen := 4;
               heading := head2; body := b2 |} in
  let d := {| fileMarkers := m; hunks := [h1; h2] |} in
  let secondHeader := (length (annotateMarkers m) + length b1 + 2)%nat in
  valid d = true -> plainLines d = true ->
  nth_error (diffLines d) (secondHeader - 1) = Some (headerLine h2) /\
  (forall c, scanLine (headerLine h2) c 13 = Continue 11) /\
  exists p,
    findPosition (render d) 13 = Some p /\
    (secondHeader < p <= secondHeader + length b2)%nat /\
    newLineAt d p = Some 13.
Proof.
  intros h1 h2 d secondHeader Hv Hp.
  pose proof Hv as Hv'. unfold valid in Hv'.
  apply andb_prop in Hv' as [Hv' _]. apply andb_prop in Hv' as [Hv' _].
  apply andb_prop in Hv' as [_ Hok].
  cbn [hunks d forallb] in Hok.
  apply andb_prop in Hok as [Hok1 Hok2]. apply andb_prop in Hok2 as [Hok2 _].
  unfold hunkOk in Hok1, Hok2.
  apply andb_prop in Hok1 as [Hok1 _]. apply andb_prop in Hok1 as [_ Hn1].
  apply andb_prop in Hok2 as [Hok2 _]. apply andb_prop in Hok2 as [_ Hn2].
  apply N.eqb_eq in Hn1. apply N.eqb_eq in Hn2. cbn in Hn1, Hn2.
  assert (Hlen1 : length (annotateHunk h1) = S (length b1))
    by (cbn; now rewrite annotateBody_length).
  assert (Hlen2 : length (annotateHunk h2) = S (length b2))
    by (cbn; now rewrite annotateBody_length).
  split; [|split].
  - unfold diffLines, annotate. cbn [fileMarkers hunks d flat_map].
    rewrite map_app, nth_error_app2; rewrite length_map; [|unfold secondHeader; lia].
    rewrite map_app, nth_error_app2; rewrite length_map, Hlen1;
      [|unfold secondHeader; lia].
    replace (secondHeader - 1 - length (annotateMarkers m) - S (length b1))%nat
      with 0%nat by (unfold secondHeader; lia).
    reflexivity.
  - intros c. now rewrite scanLine_header.
  - assert (Hs : shows d 13).
    { unfold shows, annotate. cbn [fileMarkers hunks d flat_map].
      rewrite !map_app, !in_app_iff. right. right. left.
      cbn [annotateHunk map snd In newStart body h2]. right.
      apply annotateBody_range. rewrite <- Hn2. lia. }
    destruct (findPosition_shown d 13 Hv Hp Hs) as (k & s & Hfind & Hk).
    exists (length (annotateMarkers m) + k + 1)%nat.
    split; [exact Hfind|]. split.
    + cbn [hunks d flat_map] in Hk. rewrite List.app_nil_r in Hk.
      destruct (Nat.lt_ge_cases k (length (annotateHunk h1))) as [Hlt|Hge].
      * exfalso. rewrite nth_error_app1 in Hk by exact Hlt.
        apply nth_error_shown in Hk. cbn [annotateHunk map snd In] in Hk.
        destruct Hk as [Hk|Hk]; [discriminate Hk|].
        apply annotateBody_range in Hk. cbn [newStart body h1] in Hk.
        rewrite <- Hn1 in Hk. lia.
      * rewrite nth_error_app2 in Hk by exact Hge.
        assert (Hk' : (k - length (annotateHunk h1) < length (annotateHunk h2))%nat)
          by (apply nth_error_Some; congruence).
        destruct (k - length (annotateHunk h1))%nat as [|j] eqn:Ej;
          [discriminate Hk|].
        unfold secondHeader. lia.
    + change (newLineAt d (length (annotateMarkers (fileMarkers d)) + k + 1)
              = Some 13).
      now rewrite newLineAt_hunks, Hk.
Qed.

Lemma two_hunks_line_13_in_second_hunk_witness :
  valid twoHunks = true /\ plainLines twoHunks = true /\
  exists p,
    findPosition (render twoHunks) 13 = Some p /\
    (6 < p <= 10)%nat /\
    newLineAt twoHunks p = Some 13.
Proof.
  split; [reflexivity|]. split; [reflexivity|].
  exact (proj2 (proj2
    (two_hunks_line_13_in_second_hunk None "" " function run()"
       [(Context, "a"); (Removed, "b"); (Added, "B"); (Context, "c")]
       [(Context, "x"); (Added, "y"); (Added, "z"); (Context, "w")]
       eq_refl eq_refl))).
Defined.

(** ** The review-list parser *)

(** The review list of section 8 gives its one valid entry. *)
Example getReview_example (filename : string) :
  getReview (ApiText (Some exampleReviews)) filename
  = (Ok (Some [entry5]), [InfoRequesting filename]).
Proof. reflexivity. Qed.

(** C4.  The text [[{"line":5,"comment":"ok"}, null]] parses as an array
    whose only element with a positive [line] and a non-empty [comment]
    is the first; [getReview] does not return that element but [null],
    with a warning: [typeof null] is ["object"], so the callback of the
    filter goes on to read [null.line], and the [TypeError] takes the
    whole list with it. *)
Theorem getReview_null_element_loses_every_review :
  JSON_parse reviewsWithNull = Some (JArray [entry5; JNull]) /\
  List.filter wellFormedReview [entry5; JNull] = [entry5] /\
  getReview (ApiText (Some reviewsWithNull)) "app.js"
  = (Ok None,
     [InfoRequesting "app.js";
      WarningInvalidFormat
        (TypeError "Cannot read properties of null (reading 'line')")]).
Proof. split; [|split]; reflexivity. Qed.



(** ** The solution parser *)

(** Whenever the final parse fails, the function throws. *)
Lemma analyze_throws_when_parse_fails (responseText str : string) :
  jsonStr responseText = Some str ->
  JSON_parse (trim (stripFences str)) = None ->
  fst (analyzeIssueWithKnowledgeBase responseText) = Throw parseFailure.
Proof.
  intros Hs Hp. unfold analyzeIssueWithKnowledgeBase. now rewrite Hs, Hp.
Qed.

(** C5.  The response [12 files changed] has no fence and no brace, so
    the text to parse is the response itself, which is no JSON; yet the
    function returns the number 2 and throws nothing: [jsonMatch] is
    then the response string, and [jsonMatch[1]] its second character. *)
Theorem analyze_returns_on_unparseable_raw_text :
  specExtract "12 files changed" = "12 files changed" /\
  specParseSolution "12 files changed" = None /\
  jsonStr "12 files changed" = Some "2" /\
  analyzeIssueWithKnowledgeBase "12 files changed"
  = (Ok (JNumber {| mant := 2; exp10 := 0 |}), []).
Proof. split; [|split; [|split]]; reflexivity. Qed.




(** Three back quotes inside a string value are removed before the text
    is parsed: fenced or not, the text is read as another object. *)
Example analyze_strips_fences_in_strings :
  JSON_parse ("{" ++ quoted "a" ++ ":" ++ quoted "```" ++ "}")
  = Some (JObject [(units "a", JString (units "```"))]) /\
  fst (analyzeIssueWithKnowledgeBase
         ("{" ++ quoted "a" ++ ":" ++ quoted "```" ++ "}"))
  = Ok (JObject [(units "a", JString [])]) /\
  fst (analyzeIssueWithKnowledgeBase
         (fenced ("{" ++ quoted "a" ++ ":" ++ quoted "```" ++ "}")))
  = Ok (JObject [(units "a", JString [])]).
Proof. split; [|split]; reflexivity. Qed.

(** ** Change application *)

(** C3, as amended.  For a change that names an existing file and has a
    [replacement] that is not empty: when [original] is a non-empty
    text and [replacement] holds none of the patterns [$$], [$&], [$`],
    [$'], the file is written with its content in which the first
    occurrence of [original] is replaced by [replacement]; when
    [original] does not occur the content stays as it is; when
    [original] is absent or empty the new content is [replacement].  A
    change whose [replacement] is absent or empty is skipped, and the
    tree stays as it is.  So [const x = 1;] with [x = 1] to be replaced
    by [x = 2] becomes [const x = 2;]. *)
Theorem applyChange_replaces_first_occurrence :
  (forall (fs : gmap string Node) (change : ChangeSpec) (p r content : string),
      file change = Some p -> p <> "" ->
      replacement change = Some r -> r <> "" ->
      fs !! p = Some (File content) ->
      (forall o before after,
          original change = Some o -> o <> "" -> plainTemplate r = true ->
          firstOccurrence o content before after ->
          applyChange content change = before ++ r ++ after /\
          applyChanges [change] fs
          = (Ok tt, <[p := File (before ++ r ++ after)]> fs, [LogUpdated p])) /\
      (forall o,
          original change = Some o -> ~ occurs o content ->
          applyChange content change = content /\
          applyChanges [change] fs = (Ok tt, fs, [LogUpdated p])) /\
      (original change = None \/ original change = Some "" ->
       applyChange content change = r /\
       applyChanges [change] fs = (Ok tt, <[p := File r]> fs, [LogUpdated p]))) /\
  (forall (fs : gmap string Node) (change : ChangeSpec),
      replacement change = None \/ replacement change = Some "" ->
      applyChanges [change] fs
      = (Ok tt, fs, [LogSkippingInvalid (file change)])) /\
  applyChange "const x = 1;" exampleChange = "const x = 2;" /\
  applyChanges [exampleChange] exampleTree
  = (Ok tt, <["src/app.js" := File "const x = 2;"]> exampleTree,
     [LogUpdated "src/app.js"]).
Proof.
  split; [|split; [|split]].
  - intros fs change p r content Hf Hp Hr Hr' Hfs.
    pose proof (applyChanges_update change fs p r content Hf Hp Hr Hr' Hfs) as Hup.
    split; [|split].
    + intros o before after Ho Hne Hpl Hfirst.
      pose proof (applyChange_first content o r before after change
                    Ho Hr Hne Hpl Hfirst) as E.
      split; [exact E | now rewrite Hup, E].
    + intros o Ho Hocc.
      pose proof (applyChange_absent content o change Ho Hocc) as E.
      split; [exact E | now rewrite Hup, E, insert_id].
    + intros H.
      assert (E : applyChange content change = r)
        by now rewrite applyChange_whole, Hr.
      split; [exact E | now rewrite Hup, E].
  - intros fs change H. rewrite applyChanges_skip_rest; [reflexivity|].
    right. now destruct H as [-> | ->].
  - reflexivity.
  - now rewrite (applyChanges_update exampleChange exampleTree "src/app.js"
                   "x = 2" "const x = 1;").
Qed.

Lemma applyChange_replaces_first_occurrence_witness :
  firstOccurrence "x = 1" "const x = 1;" "const " ";" /\
  applyChange "const x = 1;" exampleChange = "const " ++ "x = 2" ++ ";" /\
  applyChanges [exampleChange] exampleTree
  = (Ok tt, <["src/app.js" := File ("const " ++ "x = 2" ++ ";")]> exampleTree,
     [LogUpdated "src/app.js"]) /\
  applyChanges [emptyReplacement] exampleTree
  = (Ok tt, exampleTree, [LogSkippingInvalid (file emptyReplacement)]).
Proof.
  assert (H : firstOccurrence "x = 1" "const x = 1;" "const " ";").
  { split; [reflexivity|].
    exact (findSub_leftmost "x = 1" "const x = 1;" "const " ";" eq_refl). }
  split; [exact H|].
  destruct applyChange_replaces_first_occurrence as (H1 & H2 & _).
  assert (Hne : forall c s, String c s <> "") by discriminate.
  destruct (H1 exampleTree exampleChange "src/app.js" "x = 2" "const x = 1;"
              eq_refl (Hne _ _) eq_refl (Hne _ _) eq_refl) as (Ha & _ & _).
  destruct (Ha "x = 1" "const " ";" eq_refl (Hne _ _) eq_refl H) as [E1 E2].
  split; [exact E1|]. split; [exact E2|].
  exact (H2 exampleTree emptyReplacement (or_intror eq_refl)).
Defined.

(** C3 as the specification states it fails three times: an [original]
    that is present but empty has the whole content replaced, a
    [replacement] with a dollar pattern is not put in as it stands,
    and with an empty [replacement] the occurrence is not removed: the
    change is skipped. *)
Lemma applyChange_literal_counterexample :
  applyChange "abc" wholeFileChange <> specApplyChange "abc" wholeFileChange /\
  applyChange "price = 1" dollarChange <> specApplyChange "price = 1" dollarChange /\
  (specApplyChange "const x = 1;" emptyReplacement = "const ;" /\
   applyChanges [emptyReplacement] exampleTree
   = (Ok tt, exampleTree, [LogSkippingInvalid (Some "src/app.js")])).
Proof.
  split; [vm_compute; intros H; discriminate H|].
  split; [vm_compute; intros H; discriminate H|].
  split; reflexivity.
Qed.

(** C8.  When [original] is present and does not occur in the content,
    the new content is the old one, and [applyChanges] ends normally
    with the tree as it was. *)
Theorem applyChange_without_original_is_noop
        (content : string) (change : ChangeSpec) (o : string) :
  original change = Some o -> ~ occurs o content ->
  applyChange content change = content /\
  forall (fs : gmap string Node) (p : string),
    file change = Some p -> fs !! p = Some (File content) ->
    exists log, applyChanges [change] fs = (Ok tt, fs, log).
Proof.
  intros Ho Hocc.
  pose proof (applyChange_absent content o change Ho Hocc) as Hsame.
  split; [exact Hsame|].
  intros fs p Hf Hfs.
  destruct (truthyOpt (file change)) eqn:Tf;
    [|eexists; now rewrite applyChanges_skip_rest by auto].
  destruct (truthyOpt (replacement change)) eqn:Tr;
    [|eexists; now rewrite applyChanges_skip_rest by auto].
  destruct (replacement change) as [r|] eqn:Hr; [|discriminate Tr].
  exists [LogUpdated p].
  rewrite (applyChanges_update change fs p r content Hf) ; try assumption.
  - now rewrite Hsame, insert_id.
  - rewrite Hf in Tf. now destruct p.
  - now destruct r.
Qed.

Lemma applyChange_without_original_is_noop_witness :
  ~ occurs "x = 1" "const x = 2;" /\
  applyChange "const x = 2;" exampleChange = "const x = 2;" /\
  exists log,
    applyChanges [exampleChange] {[ "src/app.js" := File "const x = 2;" ]}
    = (Ok tt, {[ "src/app.js" := File "const x = 2;" ]}, log).
Proof.
  assert (H : ~ occurs "x = 1" "const x = 2;")
    by exact (findSub_None "x = 1" "const x = 2;" eq_refl).
  split; [exact H|].
  destruct (applyChange_without_original_is_noop
              "const x = 2;" exampleChange "x = 1" eq_refl H) as [H1 H2].
  split; [exact H1|].
  exact (H2 {[ "src/app.js" := File "const x = 2;" ]} "src/app.js" eq_refl eq_refl).
Defined.

(** C10.  A change whose [replacement] is the empty string is skipped
    and the tree goes on untouched; an [original] that is the empty
    string counts as absent: the new content is [replacement], and the
    file is written with it. *)
Theorem applyChanges_tests_truthiness :
  (forall (change : ChangeSpec) (rest : list ChangeSpec) (fs : gmap string Node),
      replacement change = Some "" ->
      applyChanges (change :: rest) fs
      = let '(r, fs', log) := applyChanges rest fs in
        (r, fs', LogSkippingInvalid (file change) :: log)) /\
  (forall (content : string) (change : ChangeSpec),
      original change = Some "" ->
      applyChange content change = default "" (replacement change)) /\
  (forall (change : ChangeSpec) (fs : gmap string Node) (p r content : string),
      file change = Some p -> p <> "" ->
      replacement change = Some r -> r <> "" ->
      original change = Some "" ->
      fs !! p = Some (File content) ->
      applyChanges [change] fs = (Ok tt, <[p := File r]> fs, [LogUpdated p])).
Proof.
  split; [|split].
  - intros change rest fs Hr. apply applyChanges_skip_rest. right. now rewrite Hr.
  - intros content change Ho. apply applyChange_whole. now right.
  - intros change fs p r content Hf Hp Hr Hr' Ho Hfs.
    rewrite (applyChanges_update change fs p r content Hf Hp Hr Hr' Hfs).
    rewrite applyChange_whole by now right. now rewrite Hr.
Qed.

Lemma applyChanges_tests_truthiness_witness :
  applyChanges [emptyReplacement] exampleTree
  = (Ok tt, exampleTree, [LogSkippingInvalid (Some "src/app.js")]) /\
  applyChange "const x = 1;" wholeFileChange = "const y = 0;" /\
  applyChanges [wholeFileChange] exampleTree
  = (Ok tt, <["src/app.js" := File "const y = 0;"]> exampleTree,
     [LogUpdated "src/app.js"]).
Proof.
  destruct applyChanges_tests_truthiness as (H1 & H2 & H3).
  split; [exact (H1 emptyReplacement [] exampleTree eq_refl)|].
  split; [exact (H2 "const x = 1;" wholeFileChange eq_refl)|].
  refine (H3 wholeFileChange exampleTree "src/app.js" "const y = 0;"
            "const x = 1;" eq_refl _ eq_refl _ eq_refl eq_refl); discriminate.
Defined.

Import LocatorMore.

(* ================================================================== *)
(** * Further properties of the code *)
(* ================================================================== *)

(** ** The locator, on every patch text *)

(** X1.  Whatever the patch text and the target, a position that the
    locator returns is the 1-based index of a line of the patch, and
    that line begins with neither [---] nor [+++] and is no hunk header
    that the pattern matches. *)
Theorem findPosition_within_patch (patch : string) (L : Z) (p : nat) :
  findPosition patch L = Some p ->
  (1 <= p <= length (split_nl patch))%nat /\
  exists line,
    nth_error (split_nl patch) (p - 1) = Some line /\
    startsWith "---" line = false /\ startsWith "+++" line = false /\
    (startsWith "@@" line = true -> hunkHeaderMatch line = None).
Proof.
  unfold findPosition. intros H.
  destruct (scan_Some _ _ _ _ _ H) as (Hp & line & c' & Hn & Hf).
  split; [lia|]. exists line.
  replace (p - 0 - 1)%nat with (p - 1)%nat in Hn by lia.
  split; [exact Hn|].
  destruct (scanLine_Found _ _ _ Hf) as (H1 & H2 & H3 & _). auto.
Qed.

Lemma findPosition_within_patch_witness :
  findPosition (render twoHunks) 13 = Some 8%nat /\
  (1 <= 8 <= length (split_nl (render twoHunks)))%nat /\
  exists line,
    nth_error (split_nl (render twoHunks)) (8 - 1) = Some line /\
    startsWith "---" line = false /\ startsWith "+++" line = false /\
    (startsWith "@@" line = true -> hunkHeaderMatch line = None).
Proof.
  split; [reflexivity|].
  exact (findPosition_within_patch (render twoHunks) 13 8 eq_refl).
Defined.

(** X2.  On a valid diff of plain lines the locator finds no line that
    the diff does not show, unless the target is one less than the
    first new-file line of a hunk (the value the counter has after the
    header of that hunk). *)
Theorem locator_misses_unshown_line (d : Diff) (L : Z) :
  valid d = true -> plainLines d = true -> ~ shows d L ->
  (forall h, In h (hunks d) -> Z.of_N (newStart h) - 1 <> L) ->
  findPosition (render d) L = None.
Proof.
  intros Hv Hp Hs Hstart. rewrite (findPosition_render d L Hv).
  unfold diffLines, annotate. rewrite map_app, scan_markers.
  apply scan_hunks_pass; [exact Hp | | exact Hstart].
  intros Hin. apply Hs. unfold shows, annotate.
  rewrite map_app, in_app_iff. now right.
Qed.

Lemma locator_misses_unshown_line_witness :
  valid twoHunks = true /\ plainLines twoHunks = true /\
  ~ shows twoHunks 7 /\
  findPosition (render twoHunks) 7 = None.
Proof.
  assert (Hs : ~ shows twoHunks 7).
  { unfold shows. cbn. intros H.
    repeat (destruct H as [H|H]; [discriminate H|]). exact H. }
  split; [reflexivity|]. split; [reflexivity|]. split; [exact Hs|].
  apply (locator_misses_unshown_line twoHunks 7 eq_refl eq_refl Hs).
  intros h Hh. cbn in Hh.
  repeat (destruct Hh as [<-|Hh]; [cbn; lia|]). destruct Hh.
Defined.

(** X3.  Every hunk header as a diff writes it, with or without the
    two lengths and whatever follows the closing [@@], sets the counter
    to one less than the start of the hunk in the new file, whatever
    the counter and the target were. *)
Theorem hunk_header_sets_counter (h : Hunk) (c L : Z) :
  scanLine (headerLine h) c L = Continue (Z.of_N (newStart h) - 1).
Proof. apply scanLine_header. Qed.

Import ReviewMore.

(** ** The review-list parser, on every answer *)

(** X4.  [getReview] returns a list exactly when the model gave a text
    that, trimmed, parses to an array without [null]; the list is then
    the elements that are objects with a [line] that is a number
    greater than 0 and a [comment] that is a string that is not empty,
    in their order, and nothing but the request is logged. *)
Theorem getReview_returns_checked_reviews
        (api : ApiOutcome) (filename : string) (reviews : list JSON)
        (entries : list Review.LogEntry) :
  getReview api filename = (Ok (Some reviews), entries) <->
  exists text elements,
    api = ApiText (Some text) /\
    JSON_parse (trim text) = Some (JArray elements) /\
    Forall (fun v => v <> JNull) elements /\
    reviews = List.filter wellFormedReview elements /\
    entries = [InfoRequesting filename].
Proof.
  split.
  - destruct api as [e|[text|]]; cbn [getReview]; [discriminate| |].
    + unfold validate. rewrite reviewTextOf_parse.
      destruct (JSON_parse (trim text)) as [v|] eqn:Ep.
      * destruct v as [| | | |elements|]; cbn; try discriminate.
        destruct (filterReviews elements) as [kept|e] eqn:Ef; [|discriminate].
        intros H. inversion H; subst.
        destruct (filterReviews_Ok _ _ Ef) as [Hall ->].
        exists text, elements. auto.
      * destruct (truthy (trim text)); cbn; discriminate.
    + cbn. discriminate.
  - intros (text & elements & -> & Hp & Hall & -> & ->).
    now apply getReview_array.
Qed.

(** X5.  When the model gives no text, or a text of white space only,
    [getReview] returns [null] and warns that the response is not an
    array: the text [null] is what gets parsed. *)
Theorem getReview_blank_answer (text : option string) (filename : string) :
  (forall t, text = Some t -> allTrimSpace t = true) ->
  getReview (ApiText text) filename
  = (Ok None, [InfoRequesting filename;
               WarningInvalidFormat (Error "Response is not an array")]).
Proof.
  intros H. destruct text as [t|]; [|reflexivity].
  unfold getReview. now rewrite (reviewTextOf_blank t (H t eq_refl)).
Qed.

Lemma getReview_blank_answer_witness :
  getReview (ApiText (Some (" " ++ nl))) "a.js"
  = (Ok None, [InfoRequesting "a.js";
               WarningInvalidFormat (Error "Response is not an array")]).
Proof.
  apply (getReview_blank_answer (Some (" " ++ nl)) "a.js").
  intros t Ht. inversion Ht. reflexivity.
Defined.

Import SolutionMore.

(** ** The solution parser, on every response *)

(** X6.  Whatever the response text, the function either returns the
    parsed value and logs nothing, or logs the syntax error of
    [JSON.parse] and throws the error [Failed to parse solution from AI
    response]: the index into the match is never [undefined], so
    nothing else can be thrown past the request. *)
Theorem analyze_outcomes (responseText : string) :
  (exists str v,
      jsonStr responseText = Some str /\
      JSON_parse (trim (stripFences str)) = Some v /\
      analyzeIssueWithKnowledgeBase responseText = (Ok v, [])) \/
  (exists str,
      jsonStr responseText = Some str /\
      JSON_parse (trim (stripFences str)) = None /\
      analyzeIssueWithKnowledgeBase responseText
      = (Throw parseFailure,
         [ErrorFailedToParse SyntaxError; ErrorAnalyzing parseFailure])).
Proof.
  destruct (jsonStr_defined responseText) as [str Hs].
  unfold analyzeIssueWithKnowledgeBase. rewrite Hs.
  destruct (JSON_parse (trim (stripFences str))) as [v|] eqn:Hp.
  - left. now exists str, v.
  - right. now exists str.
Qed.

(** X7.  Of a response with no fenced block and no pair of braces the
    function parses one character only (the second, or the only one),
    so all it can return is a number of one digit: the response
    [[1,2]] gives the number 1, and the response [null] makes it
    throw. *)
Theorem analyze_raw_text_gives_one_digit (responseText : string) (v : JSON) :
  fencedMatch responseText = None -> braceMatch responseText = None ->
  fst (analyzeIssueWithKnowledgeBase responseText) = Ok v ->
  exists d, 0 <= d <= 9 /\ v = JNumber {| mant := d; exp10 := 0 |}.
Proof.
  intros Hf Hb. unfold analyzeIssueWithKnowledgeBase.
  rewrite (jsonStr_raw _ Hf Hb).
  destruct responseText as [|c [|d s]].
  - vm_compute. discriminate.
  - destruct (JSON_parse (trim (stripFences (String c "")))) as [w|] eqn:Hp;
      [|discriminate].
    intros H. inversion H; subst w. exact (parse_one_char c v Hp).
  - destruct (JSON_parse (trim (stripFences (String d "")))) as [w|] eqn:Hp;
      [|discriminate].
    intros H. inversion H; subst w. exact (parse_one_char d v Hp).
Qed.

Lemma analyze_raw_text_gives_one_digit_witness :
  fst (analyzeIssueWithKnowledgeBase "12 files changed")
  = Ok (JNumber {| mant := 2; exp10 := 0 |}) /\
  fst (analyzeIssueWithKnowledgeBase "[1,2]")
  = Ok (JNumber {| mant := 1; exp10 := 0 |}) /\
  fst (analyzeIssueWithKnowledgeBase "null") = Throw parseFailure /\
  exists d, 0 <= d <= 9 /\
            JNumber {| mant := 2; exp10 := 0 |} = JNumber {| mant := d; exp10 := 0 |}.
Proof.
  split; [reflexivity|]. split; [reflexivity|]. split; [reflexivity|].
  exact (analyze_raw_text_gives_one_digit "12 files changed" _
           eq_refl eq_refl eq_refl).
Defined.

(** X8.  After the fence markers are removed no run of three back
    quotes is left in the text, whatever it was, and removing them
    again changes nothing. *)
Theorem stripFences_leaves_no_fence (s : string) :
  findSub "```" (stripFences s) = None /\
  stripFences (stripFences s) = stripFences s.
Proof.
  unfold stripFences. split; [apply stripFrom_no_fence|].
  apply stripFrom_id, stripFrom_no_fence.
Qed.

Import Paths ChangeMore.

(** ** The application of changes, on every list of changes *)

(** X9.  The loop touches only the files that the paths of the
    changes resolve to, however a path is spelled ([./a.txt], an
    absolute path or a link name the file they resolve to): a file
    that the path of no change resolves to keeps what it had, its
    content or its absence, and the file that a path resolves to is the
    one written. *)
Theorem applyChanges_leaves_other_paths
        (resolve : string -> string)
        (changes : list ChangeSpec) (fs : gmap string Node) (p : string) :
  (forall change q, In change changes -> file change = Some q -> resolve q <> p) ->
  snd (fst (applyChangesAt resolve changes fs)) !! p = fs !! p /\
  (forall change q r content,
      file change = Some q -> q <> "" ->
      replacement change = Some r -> r <> "" ->
      fs !! resolve q = Some (File content) ->
      applyChangesAt resolve [change] fs
      = (Ok tt, <[resolve q := File (applyChange content change)]> fs,
         [LogUpdated q])) /\
  applyChangesAt (fun path => path) changes fs = applyChanges changes fs.
Proof.
  intros H. split; [now apply applyChangesAt_frame|]. split.
  - intros change q r content. apply applyChangesAt_update.
  - apply applyChangesAt_id.
Qed.

Lemma applyChanges_leaves_other_paths_witness :
  snd (fst (applyChangesAt fromHere [dottedChange; wholeFileChange] twoFiles))
    !! "README.md"
  = Some (File "Read me.") /\
  applyChangesAt fromHere [dottedChange] twoFiles
  = (Ok tt, <["src/app.js" := File "const x = 2;"]> twoFiles,
     [LogUpdated "./src/app.js"]).
Proof.
  assert (H : forall change q,
             In change [dottedChange; wholeFileChange] ->
             file change = Some q -> fromHere q <> "README.md").
  { intros change q [<-|[<-|[]]] Hq; inversion Hq; discriminate. }
  destruct (applyChanges_leaves_other_paths fromHere
              [dottedChange; wholeFileChange] twoFiles "README.md" H)
    as (H1 & H2 & _).
  split.
  - rewrite H1. reflexivity.
  - refine (H2 dottedChange "./src/app.js" "x = 2" "const x = 1;"
              eq_refl _ eq_refl _ eq_refl); discriminate.
Defined.

(** X10.  The loop creates no file and removes none, and a directory
    stays a directory: after any list of changes, thrown or not, a path
    is absent exactly when it was, and names a directory exactly when
    it did. *)
Theorem applyChanges_keeps_paths
        (changes : list ChangeSpec) (fs : gmap string Node) (p : string) :
  (snd (fst (applyChanges changes fs)) !! p = None <-> fs !! p = None) /\
  (snd (fst (applyChanges changes fs)) !! p = Some Directory
   <-> fs !! p = Some Directory).
Proof. apply applyChanges_kinds. Qed.

(** X11.  Applying a list of changes is applying a first part of it and
    then the rest to the tree that the first part left, the logs one
    after the other; when the first part throws, the rest is not
    applied. *)
Theorem applyChanges_in_sequence
        (first rest : list ChangeSpec) (fs : gmap string Node) :
  applyChanges (first ++ rest) fs
  = match applyChanges first fs with
    | (Ok _, fs1, log1) =>
        let '(r, fs2, log2) := applyChanges rest fs1 in
        (r, fs2, (log1 ++ log2)%list)
    | (Throw e, fs1, log1) => (Throw e, fs1, log1)
    end.
Proof. apply applyChanges_app. Qed.

Import PrReview BranchInfo BranchShape.
Import StringFacts LocatorFacts BranchFacts.

(** ** The annotations *)

(** X12.  The call that [createAnnotation] makes is fixed by the type:
    [core.error], [core.warning] or [core.notice] for these three
    types, each with the message and the annotation, and for every
    other type no annotation is created: the message goes to the
    console.  The annotation carries the title [PR Review Bot] and the
    message; it carries the file exactly when one is given that is not
    empty, and the line exactly when such a file and a line other than
    0 are given. *)
Theorem createAnnotation_shape
        {M : Type} (type : string) (text : M) (file : option string)
        (line : option Z) :
  exists a : Annotation M,
    title a = "PR Review Bot" /\ message a = text /\
    (forall f, annotationFile a = Some f <-> file = Some f /\ f <> "") /\
    (forall l, annotationLine a = Some l <->
               line = Some l /\ l <> 0 /\ exists f, file = Some f /\ f <> "") /\
    (type = "error" ->
     createAnnotation type text file line = CoreError text a) /\
    (type = "warning" ->
     createAnnotation type text file line = CoreWarning text a) /\
    (type = "notice" ->
     createAnnotation type text file line = CoreNotice text a) /\
    (type <> "error" -> type <> "warning" -> type <> "notice" ->
     createAnnotation type text file line = ConsoleLog text).
Proof.
  unfold createAnnotation.
  exists {| title := "PR Review Bot"; message := text;
            annotationFile := if truthyOpt file then file else None;
            annotationLine :=
              if truthyOpt file && truthyLine line then line else None |}.
  split; [reflexivity|]. split; [reflexivity|].
  cbn [annotationFile annotationLine]. split; [|split].
  - intros f. destruct file as [[|c f']|]; cbn; split;
      try (intros H; discriminate H); try (intros [H _]; discriminate H).
    + intros [H Hne]. inversion H; subst f. contradiction.
    + intros H. inversion H; subst f. split; [reflexivity | discriminate].
    + intros [H _]. exact H.
  - intros l. destruct file as [[|c f']|]; cbn [truthyOpt truthy andb]; split;
      try (intros H; discriminate H);
      try (intros (_ & _ & f & H & Hne); inversion H; subst f; contradiction);
      try (intros (_ & _ & f & H & _); discriminate H).
    + destruct line as [z|]; cbn [truthyLine]; [|discriminate].
      destruct (Z.eqb_spec z 0); cbn [negb]; [discriminate|].
      intros H. inversion H; subst l.
      split; [reflexivity|]. split; [assumption|].
      eexists. split; [reflexivity | discriminate].
    + intros (-> & Hl & _). cbn [truthyLine].
      destruct (Z.eqb_spec l 0); [contradiction | reflexivity].
  - split; [|split; [|split]].
    + intros ->. reflexivity.
    + intros ->. reflexivity.
    + intros ->. reflexivity.
    + intros H1 H2 H3.
      destruct (String.eqb_spec type "error"); [contradiction|].
      destruct (String.eqb_spec type "warning"); [contradiction|].
      destruct (String.eqb_spec type "notice"); [contradiction|].
      reflexivity.
Qed.

Lemma createAnnotation_shape_witness :
  exists a : Annotation string,
    createAnnotation "warning" "Check this." (Some "src/app.js") (Some 3)
    = CoreWarning "Check this." a /\
    annotationFile a = Some "src/app.js" /\ annotationLine a = Some 3.
Proof.
  destruct (createAnnotation_shape "warning" "Check this."
              (Some "src/app.js") (Some 3))
    as (a & _ & _ & Hf & Hl & _ & Hw & _).
  exists a. split; [exact (Hw eq_refl)|]. split.
  - apply Hf. split; [reflexivity | discriminate].
  - apply Hl. split; [reflexivity|]. split; [discriminate|].
    exists "src/app.js". split; [reflexivity | discriminate].
Defined.

(** ** The base branch *)

(** X13.  The base branch is the member [branch] of the object that the
    answer of the model parses to, when that member is truthy, and then
    nothing is logged; in every other case (a failed request, no text,
    a text that is no JSON or no object, no member [branch], a falsy
    one) it is [main].  So it is never a falsy value. *)
Theorem baseBranch_cases (api : ApiOutcome) :
  (forall text ms v,
      api = ApiText text ->
      JSON_parse (extractedTextOf text) = Some (JObject ms) ->
      lookup (units "branch") ms = Some v -> truthyJson (Some v) = true ->
      baseBranch api = v /\ snd (extractBranchInfo api) = []) /\
  ((forall text ms v,
       api = ApiText text ->
       JSON_parse (extractedTextOf text) = Some (JObject ms) ->
       lookup (units "branch") ms = Some v -> truthyJson (Some v) = false) ->
   baseBranch api = JString (units "main")) /\
  truthyJson (Some (baseBranch api)) = true.
Proof.
  split; [|split].
  - intros text ms v -> Hp Hl Hv.
    unfold baseBranch, extractBranchInfo. rewrite Hp. cbn [getProp].
    rewrite Hl. cbn [fst snd]. now rewrite Hv.
  - intros H. unfold baseBranch, extractBranchInfo.
    destruct api as [e|text]; [reflexivity|].
    destruct (JSON_parse (extractedTextOf text)) as [[| | | | |ms]|] eqn:Hp;
      try reflexivity.
    cbn [getProp fst].
    destruct (lookup (units "branch") ms) as [v|] eqn:Hl; [|reflexivity].
    now rewrite (H text ms v eq_refl Hp Hl).
  - unfold baseBranch.
    destruct (fst (extractBranchInfo api)) as [v|]; [|reflexivity].
    destruct (truthyJson (Some v)) eqn:Hv; [exact Hv | reflexivity].
Qed.

Lemma baseBranch_cases_witness :
  (baseBranch (ApiText (Some (branchAnswer "develop")))
   = JString (units "develop") /\
   snd (extractBranchInfo (ApiText (Some (branchAnswer "develop")))) = []) /\
  baseBranch (ApiText (Some "the develop branch")) = JString (units "main").
Proof.
  split.
  - apply (proj1 (baseBranch_cases (ApiText (Some (branchAnswer "develop"))))
             (Some (branchAnswer "develop"))
             [(units "branch", JString (units "develop"))]
             (JString (units "develop")));
      reflexivity.
  - apply (proj1 (proj2 (baseBranch_cases (ApiText (Some "the develop branch"))))).
    intros text ms v E. inversion E; subst text. vm_compute. discriminate.
Defined.

(** X14.  When the model answers with the object asked of it, [branch]
    a name without double quote, backslash and control character, the
    base branch is that name, read back unit by unit; for the empty
    name it is [main]. *)
Theorem baseBranch_reads_answer (name : string) :
  plainText name = true ->
  baseBranch (ApiText (Some (branchAnswer name)))
  = if truthy name then JString (units name) else JString (units "main").
Proof.
  intros H. unfold baseBranch, extractBranchInfo, extractedTextOf.
  rewrite branchAnswer_trim.
  change (truthy (branchAnswer name)) with true. cbn iota.
  rewrite (branchAnswer_parse name H). cbn [getProp].
  rewrite lookup_single. cbn [fst].
  destruct name as [|c name]; reflexivity.
Qed.

Lemma baseBranch_reads_answer_witness :
  baseBranch (ApiText (Some (branchAnswer "release/1.x")))
  = JString (units "release/1.x").
Proof. exact (baseBranch_reads_answer "release/1.x" eq_refl). Defined.

(** X15.  The name of the new branch is [issue-] and the number of the
    issue in decimal digits, from which [parseInt] reads the number
    back: two issues never share a branch. *)
Theorem newBranch_names_issue (number : N) :
  startsWith "issue-" (newBranch number) = true /\
  option_map parseInt (dropPrefix "issue-" (newBranch number))
  = Some (Z.of_N number) /\
  (forall other, newBranch other = newBranch number -> other = number).
Proof.
  unfold newBranch. split; [apply startsWith_app|]. split.
  - now rewrite dropPrefix_app; cbn; rewrite parseInt_dec.
  - intros other H.
    assert (E : dec other = dec number).
    { pose proof (dropPrefix_app "issue-" (dec other)) as E1.
      rewrite H, dropPrefix_app in E1. now inversion E1. }
    apply (f_equal parseInt) in E. rewrite !parseInt_dec in E. lia.
Qed.

Lemma newBranch_names_issue_witness :
  newBranch 42 = "issue-42" /\
  option_map parseInt (dropPrefix "issue-" (newBranch 42)) = Some 42 /\
  (newBranch 42 = newBranch 42 -> 42%N = 42%N).
Proof.
  split; [reflexivity|].
  split; [exact (proj1 (proj2 (newBranch_names_issue 42)))|].
  exact (proj2 (proj2 (newBranch_names_issue 42)) 42%N).
Defined.

Import PrReview PrShape PrExamples.
Import LocatorMore ReviewMore DriverFacts.

(** ** The driver *)

(** X16.  Every comment that a run creates is for a file of the listing
    that is neither removed nor of a skipped type and has a patch text:
    it names the head commit and that file, its position is the number
    of a line of the patch, and its text is a string that is not empty.
    This holds whatever the model answers and whichever requests fail. *)
Theorem reviewPR_comments_fit_files
        (lineOf : num -> option Z) (createReviewComment : nat -> option RequestError)
        (files : list (PrFile * ApiOutcome)) (title sha : string) :
  Forall (fun c => exists file api,
                     In (file, api) files /\ commentFor sha file c)
         (posted (snd (reviewPR lineOf createReviewComment
                                (Listed files) (Got title sha)))).
Proof.
  cbn [reviewPR snd logged posted].
  destruct (reviewFiles_posts lineOf createReviewComment sha files
              (logged start [InfoStarting; InfoFound (length files);
                             InfoDetails title]))
    as (new & k & Hp & Hf & _).
  rewrite Hp. exact Hf.
Qed.

(** X17.  Once the listing and the details are there, a run ends without
    an exception whatever happens with the files; [processedFiles]
    counts the comments created (not the files), the skipped and the
    failed files together are at most the files listed, and every
    request that created no comment is counted as a skipped or a failed
    file. *)
Theorem reviewPR_counters
        (lineOf : num -> option Z) (createReviewComment : nat -> option RequestError)
        (files : list (PrFile * ApiOutcome)) (title sha : string) :
  let run := reviewPR lineOf createReviewComment (Listed files) (Got title sha) in
  fst run = None /\
  processedFiles (snd run) = length (posted (snd run)) /\
  (skippedFiles (snd run) + errorFiles (snd run) <= length files)%nat /\
  (length (posted (snd run)) <= requests (snd run)
   <= length (posted (snd run)) + skippedFiles (snd run) + errorFiles (snd run))%nat.
Proof.
  cbn [reviewPR fst snd logged posted requests processedFiles skippedFiles errorFiles].
  destruct (reviewFiles_posts lineOf createReviewComment sha files
              (logged start [InfoStarting; InfoFound (length files);
                             InfoDetails title]))
    as (new & k & Hp & _ & Hn & Hle & Hge & Hq).
  cbn in Hp, Hn, Hle, Hge, Hq. rewrite Hp, Hn, Hq. repeat split; lia.
Qed.

(** X18.  A file whose answer from the model is no usable review list
    ([getReview] gives [null]), or that has no patch text, changes
    nothing but the log: the comments created, the requests made and
    the three counters of the whole run are as if the file were not
    listed. *)
Theorem unusable_file_leaves_run_unchanged
        (lineOf : num -> option Z) (createReviewComment : nat -> option RequestError)
        (sha : string) (before rest : list (PrFile * ApiOutcome))
        (file : PrFile) (api : ApiOutcome) (st : State) :
  skipFile file = false ->
  fst (getReview api (filename file)) = Ok None \/
  truthyOpt (patch file) = false ->
  sameCounts
    (reviewFiles lineOf createReviewComment sha (before ++ (file, api) :: rest) st)
    (reviewFiles lineOf createReviewComment sha (before ++ rest) st).
Proof.
  intros Hskip H. rewrite !reviewFiles_app. cbn [reviewFiles]. rewrite Hskip.
  apply reviewFiles_sameCounts.
  destruct H as [H|H];
    [now apply reviewFile_null | now apply reviewFile_no_patch].
Qed.

Lemma unusable_file_leaves_run_unchanged_witness :
  sameCounts
    (reviewFiles integerLine secondFails "abc"
       ([] ++ (changedFile, ApiText (Some "I cannot review this."))
           :: [(changedFile, ApiText (Some threeReviews))]) start)
    (reviewFiles integerLine secondFails "abc"
       ([] ++ [(changedFile, ApiText (Some threeReviews))]) start).
Proof.
  apply (unusable_file_leaves_run_unchanged integerLine secondFails "abc" []
           [(changedFile, ApiText (Some threeReviews))] changedFile
           (ApiText (Some "I cannot review this.")) start).
  - reflexivity.
  - left. reflexivity.
Defined.

(** X19.  After a request to create a comment has failed, no further
    request is made for the same file: the comments that follow in the
    review list of that file are dropped. *)
Theorem failed_request_ends_file
        (lineOf : num -> option Z) (createReviewComment : nat -> option RequestError)
        (file : PrFile) (sha : string) (api : ApiOutcome) (st : State)
        (k : nat) (e : RequestError) :
  createReviewComment k = Some e -> (requests st <= k)%nat ->
  (requests (reviewFile lineOf createReviewComment file sha api st) <= S k)%nat.
Proof.
  intros Hk Hst. unfold reviewFile.
  destruct (getReview api (filename file)) as [[[reviews|]|err] entries].
  - match goal with
    | |- context [postReviews _ _ _ _ ?rs ?x] =>
        pose proof (postReviews_stops lineOf createReviewComment file sha rs k e Hk x Hst)
          as Hle
    end.
    destruct (postReviews _ _ _ _ _ _) as [st3 t]. cbn [fst] in Hle.
    destruct t as [t|]; [|exact Hle].
    destruct (caught_counts file st3 t) as (_ & -> & _). exact Hle.
  - cbn. lia.
  - destruct (caught_counts file
                (logged (logged st [InfoFetching (filename file);
                                    InfoReviewing (filename file)])
                        (map FromGetReview entries)) (ThrownJs err))
      as (_ & -> & _).
    cbn. lia.
Qed.

Lemma failed_request_ends_file_witness :
  secondFails 1 = Some unprocessable /\ (requests start <= 1)%nat /\
  (requests (reviewFile integerLine secondFails changedFile "abc"
               (ApiText (Some threeReviews)) start) <= 2)%nat.
Proof.
  split; [reflexivity|]. split; [cbn; lia|].
  apply (failed_request_ends_file integerLine secondFails changedFile "abc"
           (ApiText (Some threeReviews)) start 1 unprocessable eq_refl).
  cbn. lia.
Defined.

(** X20.  The test on the file name holds exactly for the names that
    end with a dot and one of the seven extensions, the letters of the
    extension in either case. *)
Theorem hasBinaryExtension_iff (name : string) :
  hasBinaryExtension name = true <->
  exists base ext,
    name = base ++ "." ++ ext /\ In (lowerCase ext) binaryExtensions.
Proof.
  unfold hasBinaryExtension. rewrite existsb_exists. split.
  - intros (x & Hin & He). apply endsWith_spec in He as [pre He].
    destruct (lowerCase_split _ _ _ He) as (a' & b' & -> & _ & Hb).
    destruct b' as [|c ext]; [discriminate Hb|].
    cbn [lowerCase append] in Hb. inversion Hb as [[Hc Hx]].
    apply toLower_dot in Hc. subst c.
    exists a', ext. split; [reflexivity|]. now rewrite Hx.
  - intros (base & ext & -> & Hin). exists (lowerCase ext).
    split; [exact Hin|]. apply endsWith_spec. exists (lowerCase base).
    now rewrite !lowerCase_app.
Qed.

(** X21.  A review on a line that the patch of its file shows is
    posted on that line: when the patch is a valid diff of plain lines
    that shows new-file line [L], the review names [L] and the request
    goes through, the comment is created at a position whose diff line
    shows line [L], with the text of the review. *)
Theorem review_on_shown_line_is_posted
        (lineOf : num -> option Z) (createReviewComment : nat -> option RequestError)
        (file : PrFile) (sha : string) (d : Diff) (L : Z)
        (ms : list (jstring * JSON)) (n : num) (comment : jstring) (st : State) :
  patch file = Some (render d) ->
  valid d = true -> plainLines d = true -> shows d L ->
  lookup (units "line") ms = Some (JNumber n) -> lineOf n = Some L ->
  lookup (units "comment") ms = Some (JString comment) ->
  createReviewComment (requests st) = None ->
  exists p,
    newLineAt d p = Some L /\
    postReviews lineOf createReviewComment file sha [JObject ms] st
    = (created st {| body := Some (JString comment); commit_id := sha;
                     path := filename file; position := p |}, None).
Proof.
  intros Hpatch Hv Hp Hs Hl Hn Hc Hq.
  destruct (LocatorFacts.findPosition_shown d L Hv Hp Hs) as (k & s & Hfind & Hk).
  eexists. split.
  - rewrite LocatorFacts.newLineAt_hunks, Hk. reflexivity.
  - cbn [postReviews]. rewrite Hpatch. cbn [truthyOpt].
    rewrite (render_truthy d Hv). cbn [negb getProp default id].
    rewrite Hl, Hc. unfold positionOf. rewrite Hn.
    unfold default, id. rewrite Hfind, Hq. reflexivity.
Qed.

Lemma review_on_shown_line_is_posted_witness :
  exists p,
    newLineAt twoHunks p = Some 13 /\
    postReviews integerLine secondFails changedFile "abc" [JObject
        [(units "line", JNumber {| mant := 13; exp10 := 0 |});
         (units "comment", JString (units "second"))]] start
    = (created start {| body := Some (JString (units "second"));
                        commit_id := "abc";
                        path := filename changedFile; position := p |}, None).
Proof.
  refine (review_on_shown_line_is_posted integerLine secondFails changedFile
            "abc" twoHunks 13
            [(units "line", JNumber {| mant := 13; exp10 := 0 |});
             (units "comment", JString (units "second"))]
            {| mant := 13; exp10 := 0 |} (units "second") start
            eq_refl eq_refl eq_refl _ eq_refl eq_refl eq_refl eq_refl).
  unfold shows. cbn. tauto.
Defined.
